(** * Data wrangling exercises: the document splitter, the street-name
      audit and the user census

    A shallow embedding of scripts of the repository:

    - [02-data-in-more-complex-formats/split_data.py] ([split_file],
      [test]),
    - [audit.py] ([update_name], [audit_street_type], [is_street_name],
      [audit], with the regular expression [street_type_re]),
    - [users.py] and [06-openstreetmap-data/users.py] ([get_user],
      [process_map]),
    - [mapparser.py] ([count_tags]),
    - [02-data-in-more-complex-formats/process.py] ([process_file]).

    Python values are modelled as follows.  A [str] is a [string]; an
    [int] is a [Z]; a [list] is a [list]; a [dict] with string keys is a
    [gmap string _]; a [set] of strings is a [gset string].  The file
    system is a [gmap] from paths to file contents.  Code that can raise
    runs in a small state-and-exception monad over a [world] that holds
    the file system and a trace of the observable events. *)

From Stdlib Require Import ZArith String Ascii List Sorted.
From Stdlib Require Import DecimalString DecimalZ DecimalPos.
From stdpp Require Import gmap strings list.

Open Scope string_scope.
Open Scope list_scope.
Open Scope Z_scope.

#[local] Arguments String.append : simpl nomatch.

(** ** Python primitives on strings *)

Module Py.

(** [s.startswith(p)]. *)
Definition startswith (s p : string) : bool := String.prefix p s.

(** [str(n)] for an [int]: decimal digits, a leading minus sign for
    negative numbers. *)
Definition str (n : Z) : string := NilZero.string_of_int (Z.to_int n).

(** [str.join] on the empty separator. *)
Fixpoint join (ls : list string) : string :=
  match ls with
  | [] => EmptyString
  | l :: ls' => l +:+ join ls'
  end.

Definition newline : ascii := "010"%char.

(** The lines a file object yields when it is iterated over: every line
    keeps its terminating newline, the last line may lack one, and an
    empty file yields nothing. *)
Fixpoint file_lines (s : string) : list string :=
  match s with
  | EmptyString => []
  | String c s' =>
      if Ascii.eqb c newline then String c EmptyString :: file_lines s'
      else match file_lines s' with
           | [] => [String c EmptyString]
           | l :: ls => String c l :: ls
           end
  end.

(** [f.readline()] on a freshly opened file with contents [s]: the first
    line with its newline, or the empty string at end of file. *)
Fixpoint readline (s : string) : string :=
  match s with
  | EmptyString => EmptyString
  | String c s' =>
      if Ascii.eqb c newline then String c EmptyString
      else String c (readline s')
  end.

End Py.

(** ** [split_data.py] *)

Module SplitData.

Inductive open_mode := ModeR | ModeW.

(** What an observer of the process sees: each attempt to open a file,
    with its outcome, and each line printed. *)
Inductive event :=
| EvOpen (path : string) (mode : open_mode) (ok : bool)
| EvPrint (text : string).

(** [perm] says which [open] calls the operating system grants; it never
    changes.  [fs] maps the paths of the existing files to their
    contents. *)
Record world := World {
  perm : string -> open_mode -> bool;
  fs : gmap string string;
  trace : list event
}.

Inductive exn :=
| IOError (path : string)
| IndexError.

Inductive result (A : Type) :=
| Return (a : A)
| Raise (e : exn).
Arguments Return {A} a.
Arguments Raise {A} e.

Definition M (A : Type) : Type := world -> result A * world.

Definition ret {A} (a : A) : M A := fun w => (Return a, w).

Definition bind {A B} (m : M A) (k : A -> M B) : M B := fun w =>
  match m w with
  | (Return a, w') => k a w'
  | (Raise e, w') => (Raise e, w')
  end.

Definition raise {A} (e : exn) : M A := fun w => (Raise e, w).

Notation "x <- m ;; k" := (bind m (fun x => k))
  (at level 100, m at next level, right associativity).
Notation "m ;;; k" := (bind m (fun _ => k))
  (at level 100, right associativity).

(** [try: body except: handler] with a bare [except], which catches
    every exception. *)
Definition try_except {A} (body handler : M A) : M A := fun w =>
  match body w with
  | (Return a, w') => (Return a, w')
  | (Raise _, w') => handler w'
  end.

Definition log (e : event) (w : world) : world :=
  {| perm := perm w; fs := fs w; trace := trace w ++ [e] |}.

Definition set_fs (m : gmap string string) (w : world) : world :=
  {| perm := perm w; fs := m; trace := trace w |}.

(** [open(path, mode)].  Reading needs an existing file; writing creates
    the file or truncates it.  A file object is identified with its
    path. *)
Definition py_open (path : string) (mode : open_mode) : M string := fun w =>
  match mode with
  | ModeR =>
      if perm w path ModeR && bool_decide (is_Some (fs w !! path))
      then (Return path, log (EvOpen path ModeR true) w)
      else (Raise (IOError path), log (EvOpen path ModeR false) w)
  | ModeW =>
      if perm w path ModeW
      then (Return path,
            log (EvOpen path ModeW true)
                (set_fs (<[path := EmptyString]> (fs w)) w))
      else (Raise (IOError path), log (EvOpen path ModeW false) w)
  end.

(** The lines [for line in f] goes through.  The loop keeps the file
    object it started on, whatever [f] is bound to later.  The lines are
    taken when the loop starts: the files written during the loop are not
    the source ([format_not_source]), which stays as it is
    ([split_file_source_kept]). *)
Definition py_lines (f : string) : M (list string) := fun w =>
  (Return (Py.file_lines (default EmptyString (fs w !! f))), w).

(** [f.write(data)].  The data is put in the file at once; CPython
    holds it in a buffer until the file object is dropped, which is when
    [f] is bound again or [split_file] is over, at the latest. *)
Definition py_write (f : string) (data : string) : M unit := fun w =>
  (Return tt, set_fs (alter (fun c => c +:+ data) f (fs w)) w).

(** [print text]. *)
Definition py_print (text : string) : M unit := fun w =>
  (Return tt, log (EvPrint text) w).

(** [lines[-1]]. *)
Definition index_last (lines : list string) : M string :=
  match List.rev lines with
  | [] => raise IndexError
  | l :: _ => ret l
  end.

(** [for l in ls: f.write(l)]. *)
Fixpoint write_lines (f : string) (ls : list string) : M unit :=
  match ls with
  | [] => ret tt
  | l :: ls' => py_write f l ;;; write_lines f ls'
  end.

(** ["{}-{}".format(filename, n)]. *)
Definition format (filename : string) (n : Z) : string :=
  filename +:+ "-" +:+ Py.str n.

Definition is_declaration (line : string) : bool :=
  Py.startswith line "<?xml".

(** The body of [for line in f], from the lines still to be read and the
    current values of [n] and [lines]; it returns their final values. *)
Fixpoint split_loop (filename : string) (input : list string)
    (n : Z) (lines : list string) : M (Z * list string) :=
  match input with
  | [] => ret (n, lines)
  | line :: input' =>
      let lines := lines ++ [line] in
      if Py.startswith line "<?xml" && (n =? 0) then
        split_loop filename input' (n + 1) lines
      else if Py.startswith line "<?xml" then
        f <- py_open (format filename (n - 1)) ModeW ;;
        l <- index_last lines ;;
        (if Py.startswith l "<?xml"
         then write_lines f (removelast lines)
         else ret tt) ;;;
        l <- index_last lines ;;
        split_loop filename input' (n + 1) [l]
      else
        split_loop filename input' n lines
  end.

Definition split_body (filename : string) : M unit :=
  let files : list string := [] in
  let n := Z.of_nat (List.length files) in
  let lines : list string := [] in
  f <- py_open filename ModeR ;;
  input <- py_lines f ;;
  st <- split_loop filename input n lines ;;
  let '(n, lines) := st in
  f <- py_open (format filename (n - 1)) ModeW ;;
  write_lines f lines.

Definition split_file (filename : string) : M unit :=
  try_except (split_body filename) (py_print "cant open").

(** *** Observations on a run *)

(** The events a run from [w] to [w'] added to the trace. *)
Definition new_events (w w' : world) : list event :=
  drop (List.length (trace w)) (trace w').

(** The paths successfully opened for writing, in the order of the
    calls. *)
Definition created (evs : list event) : list string :=
  omap (fun e => match e with
                 | EvOpen p ModeW true => Some p
                 | _ => None
                 end) evs.

Definition printed (evs : list event) : list string :=
  omap (fun e => match e with EvPrint t => Some t | _ => None end) evs.

Definition contents (w : world) (path : string) : string :=
  default EmptyString (fs w !! path).

(** The output artifacts of [split_file filename] run in [w]: the files
    it created, in the order of their creation, each with the contents
    it has when [split_file] is over. *)
Definition artifacts (filename : string) (w : world)
    : list (string * string) :=
  let w' := snd (split_file filename w) in
  map (fun p => (p, contents w' p)) (created (new_events w w')).

(** The number of declaration lines among [input], and in a blob. *)
Definition count_declarations (input : list string) : nat :=
  List.length (List.filter is_declaration input).

Definition declarations (blob : string) : nat :=
  count_declarations (Py.file_lines blob).

(** Every [open] call [split_file filename] can make is granted. *)
Definition grants (w : world) (filename : string) : Prop :=
  perm w filename ModeR = true /\
  forall n, perm w (format filename n) ModeW = true.

(** An event that reports a granted [open]. *)
Definition granted (e : event) : Prop :=
  exists p m, e = EvOpen p m true.

(** What [test] of [split_data.py] looks at in an artifact: whether
    [f.readline().startswith("<?xml")]. *)
Definition starts_declared (filename : string) (w : world) : Prop :=
  Forall (fun a => Py.startswith (Py.readline (snd a)) "<?xml" = true)
         (artifacts filename w).

Definition none_empty (filename : string) (w : world) : Prop :=
  Forall (fun a => snd a <> EmptyString) (artifacts filename w).

(** *** Sample sources *)

Definition lf : string := String Py.newline EmptyString.

(** A world with one file, [patent.data], where [deny] is the only path
    that cannot be opened. *)
Definition sample_world (blob deny : string) : world :=
  {| perm := fun p _ => negb (String.eqb p deny);
     fs := {[ "patent.data" := blob ]};
     trace := [] |}.

(** A world with one file, [patent.data], where every [open] is
    granted. *)
Definition open_world (blob : string) : world :=
  sample_world blob EmptyString.

Definition three_patents : string :=
  "<?xml a?>" +:+ lf +:+ "<p1/>" +:+ lf +:+
  "<?xml b?>" +:+ lf +:+
  "<?xml c?>" +:+ lf.

Definition junk_first : string :=
  "junk" +:+ lf +:+ "<?xml a?>" +:+ lf +:+ "<p1/>".

Definition no_patent : string := "<p0>" +:+ lf +:+ "</p0>".

End SplitData.

(** ** [audit.py] *)

Module Audit.

(** *** The regular expressions [audit.py] needs

    [street_type_re] is [\b\S+\.?$]: a sequence of four items, matched
    by backtracking the way the [re] module does.  The flag
    [re.IGNORECASE] changes nothing, as the pattern has no letter. *)

Inductive re_item :=
| WordBoundary                    (* \b *)
| Plus (cls : ascii -> bool)      (* a character class followed by + *)
| Optional (c : ascii)            (* a literal character followed by ? *)
| EndOfString.                    (* $ *)

Definition in_range (lo hi c : ascii) : bool :=
  (nat_of_ascii lo <=? nat_of_ascii c)%nat &&
  (nat_of_ascii c <=? nat_of_ascii hi)%nat.

(** [\w] without [re.LOCALE] and [re.UNICODE]: [[a-zA-Z0-9_]]. *)
Definition is_word (c : ascii) : bool :=
  in_range "a" "z" c || in_range "A" "Z" c || in_range "0" "9" c ||
  Ascii.eqb c "_".

(** [\s]: [[ \t\n\r\f\v]]. *)
Definition is_space (c : ascii) : bool :=
  Ascii.eqb c " " || in_range "009" "013" c.

Definition not_space (c : ascii) : bool := negb (is_space c).

Definition word_at (s : string) (pos : nat) : bool :=
  match String.get pos s with
  | Some c => is_word c
  | None => false
  end.

(** [\b] at [pos]: exactly one of the characters before and after [pos]
    is a word character; outside the string there is none. *)
Definition at_boundary (s : string) (pos : nat) : bool :=
  xorb (match pos with O => false | S p => word_at s p end)
       (word_at s pos).

(** [$] without [re.MULTILINE]: at the end of the string, or before a
    newline that ends the string. *)
Definition at_end (s : string) (pos : nat) : bool :=
  (pos =? String.length s)%nat ||
  ((S pos =? String.length s)%nat &&
   match String.get pos s with
   | Some c => Ascii.eqb c Py.newline
   | None => false
   end).

Fixpoint string_drop (n : nat) (s : string) : string :=
  match n, s with
  | O, _ => s
  | S n', String _ s' => string_drop n' s'
  | S _, EmptyString => EmptyString
  end.

(** The number of leading characters of [s] that are in [cls]. *)
Fixpoint span (cls : ascii -> bool) (s : string) : nat :=
  match s with
  | String c s' => if cls c then S (span cls s') else O
  | EmptyString => O
  end.

(** A greedy repetition tries the longest run first, then shorter
    ones, down to one character. *)
Fixpoint try_lengths (k : nat -> option nat) (j : nat) : option nat :=
  match j with
  | O => None
  | S j' =>
      match k j with
      | Some e => Some e
      | None => try_lengths k j'
      end
  end.

(** Where a match of [items] that starts at [pos] ends. *)
Fixpoint match_at (items : list re_item) (s : string) (pos : nat)
    : option nat :=
  match items with
  | [] => Some pos
  | WordBoundary :: items' =>
      if at_boundary s pos then match_at items' s pos else None
  | Plus cls :: items' =>
      try_lengths (fun j => match_at items' s (pos + j)%nat)
                  (span cls (string_drop pos s))
  | Optional c :: items' =>
      match String.get pos s with
      | Some c' =>
          if Ascii.eqb c' c then
            match match_at items' s (S pos) with
            | Some e => Some e
            | None => match_at items' s pos
            end
          else match_at items' s pos
      | None => match_at items' s pos
      end
  | EndOfString :: items' =>
      if at_end s pos then match_at items' s pos else None
  end.

(** [re.search]: the match at the leftmost position that has one, as
    its start and its end; [more] is the number of later positions
    still to try. *)
Fixpoint search_from (re : list re_item) (s : string) (pos more : nat)
    : option (nat * nat) :=
  match match_at re s pos with
  | Some e => Some (pos, e)
  | None =>
      match more with
      | O => None
      | S more' => search_from re s (S pos) more'
      end
  end.

Definition search (re : list re_item) (s : string) : option (nat * nat) :=
  search_from re s 0 (String.length s).

(** [m.group()]. *)
Definition group (s : string) (m : nat * nat) : string :=
  substring (fst m) (snd m - fst m) s.

Definition street_type_re : list re_item :=
  [WordBoundary; Plus not_space; Optional "."; EndOfString].

(** *** [str.replace] *)

Fixpoint replace_from (old new s : string) (skip : nat) : string :=
  match s with
  | EmptyString => EmptyString
  | String c s' =>
      match skip with
      | S k => replace_from old new s' k
      | O =>
          if String.prefix old s
          then new +:+ replace_from old new s' (String.length old - 1)
          else String c (replace_from old new s' 0)
      end
  end.

Fixpoint intersperse (new s : string) : string :=
  match s with
  | EmptyString => new
  | String c s' => new +:+ String c (intersperse new s')
  end.

(** [s.replace(old, new)]: every occurrence of [old], from the left and
    without overlap; an empty [old] occurs between every two
    characters and at both ends. *)
Definition replace (s old new : string) : string :=
  match old with
  | EmptyString => intersperse new s
  | _ => replace_from old new s 0
  end.

(** *** The audit *)

Definition mapping : gmap string string :=
  list_to_map
    [ ("Av", "Avenue"); ("Ave", "Avenue"); ("Ave.", "Avenue");
      ("Bl", "Boulevard"); ("Blvd", "Boulevard"); ("Blvd.", "Boulevard");
      ("Ci", "Circle"); ("Ct", "Court"); ("Ct.", "Court");
      ("DRIVE", "Drive"); ("Dr", "Drive"); ("La", "Lane"); ("Ln", "Lane");
      ("Pkwy", "Parkway"); ("Pkwy.", "Parkway"); ("Pl", "Place");
      ("Rd", "Road"); ("Rd.", "Road"); ("ST.", "Street"); ("St", "Street");
      ("Tr", "Trail") ].

Inductive exn := KeyError (key : string).

Inductive result (A : Type) :=
| Return (a : A)
| Raise (e : exn).
Arguments Return {A} a.
Arguments Raise {A} e.

(** The token [street_type_re] finds in [name], when it finds one. *)
Definition street_type_of (name : string) : option string :=
  group name <$> search street_type_re name.

(** [update_name].  The statement [name.replace(...)] computes a new
    string and drops it: a [str] is immutable and the result is bound
    to nothing.  [mapping[street_type]] raises [KeyError] for a missing
    key. *)
Definition update_name (name : string) (mapping : gmap string string)
    : result string :=
  match search street_type_re name with
  | Some m =>
      let street_type := group name m in
      match mapping !! street_type with
      | Some v =>
          let _ := replace name street_type v in
          Return name
      | None => Raise (KeyError street_type)
      end
  | None => Return name
  end.

End Audit.

(** ** [users.py] and [06-openstreetmap-data/users.py] *)

Module Xml.

#[local] Set Warnings "-register-all".

(** An [Element] of [ElementTree]: its tag, its attributes and its
    children. *)
Inductive Element :=
| Elem (tag : string) (attrib : gmap string string)
       (children : list Element).

Definition tag (e : Element) : string :=
  match e with Elem t _ _ => t end.
Definition attrib (e : Element) : gmap string string :=
  match e with Elem _ a _ => a end.
Definition children (e : Element) : list Element :=
  match e with Elem _ _ cs => cs end.

(** What [ET.iterparse] yields on a document with root [e] when no
    events are asked for: an ["end"] event for each element, when its
    closing tag is read; an element comes after all its descendants. *)
Fixpoint end_events (e : Element) : list (string * Element) :=
  match e with
  | Elem _ _ cs =>
      (fix go (l : list Element) : list (string * Element) :=
         match l with
         | [] => []
         | c :: l' => end_events c ++ go l'
         end) cs ++ [("end", e)]
  end.

(** *** A sample document

    [<osm><way uid="1"><nd uid="2"/></way></osm>] *)

Definition sample_nd : Element := Elem "nd" {[ "uid" := "2" ]} [].
Definition sample_way : Element :=
  Elem "way" {[ "uid" := "1" ]} [sample_nd].
Definition sample_osm : Element := Elem "osm" ∅ [sample_way].

Definition sample_iterparse (filename : string)
    : list (string * Element) :=
  end_events sample_osm.

End Xml.

Module Users.
Import Xml.

(** [get_user] of [users.py]: the [uid]s of the children of
    [element]. *)
Definition get_user (element : Element) : gset string :=
  foldl (fun users e =>
           match attrib e !! "uid" with
           | Some uid => users ∪ {[ uid ]}
           | None => users
           end) ∅ (children element).

Section process_map.
(** [ET.iterparse], the pairs of an event and an element it yields
    for a file, is the library's. *)
Variable iterparse : string -> list (string * Element).

Definition process_map (filename : string) : gset string :=
  foldl (fun users ev => get_user (snd ev)) ∅ (iterparse filename).
End process_map.

End Users.

Module Users06.
Import Xml.

(** [get_user] of [06-openstreetmap-data/users.py]: the [uid] of
    [element], then those of its children. *)
Definition get_user (element : Element) : gset string :=
  let uids : gset string :=
    match attrib element !! "uid" with
    | Some uid => ∅ ∪ {[ uid ]}
    | None => ∅
    end in
  foldl (fun uids e =>
           match attrib e !! "uid" with
           | Some uid => uids ∪ {[ uid ]}
           | None => uids
           end) uids (children element).

Section process_map.
Variable iterparse : string -> list (string * Element).

Definition process_map (filename : string) : gset string :=
  foldl (fun users ev => get_user (snd ev)) ∅ (iterparse filename).
End process_map.

End Users06.

(** ** The loop of [split_file] without its effects

    Used in the proofs only: [split_loop_pure] below shows that
    [split_loop], when every [open] is granted, does what these
    definitions say. *)

Module SplitPure.
Import SplitData.

(** The flushes [split_loop] makes, each as the number in the name of
    the file and the lines written to it, and the final values of [n]
    and [lines]. *)
Fixpoint loop_pure (input : list string) (n : Z) (lines : list string)
    : list (Z * list string) * (Z * list string) :=
  match input with
  | [] => ([], (n, lines))
  | line :: input' =>
      if is_declaration line then
        if n =? 0 then loop_pure input' (n + 1) (lines ++ [line])
        else
          let r := loop_pure input' (n + 1) [line] in
          ((n - 1, lines) :: fst r, snd r)
      else loop_pure input' n (lines ++ [line])
  end.

(** All the flushes of [split_body], the last one included. *)
Definition flushes (input : list string) : list (Z * list string) :=
  let r := loop_pure input 0 [] in
  fst r ++ [(fst (snd r) - 1, snd (snd r))].

(** The world after a successful flush. *)
Definition flush_one (filename : string) (a : Z * list string)
    (w : world) : world :=
  log (EvOpen (format filename (fst a)) ModeW true)
      (set_fs (<[format filename (fst a) := Py.join (snd a)]> (fs w)) w).

Definition flush_all (filename : string) (fl : list (Z * list string))
    (w : world) : world :=
  foldl (fun w a => flush_one filename a w) w fl.

(** A group of lines that starts with a declaration line. *)
Definition headed (chunk : list string) : Prop :=
  match chunk with
  | l :: _ => is_declaration l = true
  | [] => False
  end.

(** A line that ends with its only newline. *)
Fixpoint terminated (l : string) : bool :=
  match l with
  | EmptyString => false
  | String c l' =>
      if Ascii.eqb c Py.newline
      then match l' with EmptyString => true | _ => false end
      else terminated l'
  end.

(** A line with at least one character and no newline. *)
Fixpoint unterminated (l : string) : bool :=
  match l with
  | EmptyString => false
  | String c l' =>
      if Ascii.eqb c Py.newline then false
      else match l' with EmptyString => true | _ => unterminated l' end
  end.

(** The lines of a file: all are terminated, but for the last, which
    need not be. *)
Inductive file_shaped : list string -> Prop :=
| shaped_nil : file_shaped []
| shaped_last l : unterminated l = true -> file_shaped [l]
| shaped_cons l ls :
    terminated l = true -> file_shaped ls -> file_shaped (l :: ls).

(** What every run of a part of [split_file] from [w] satisfies: it
    adds events to the trace, removes no file, leaves the files it
    created in place, and either returns after granted [open]s only, or
    raises right after the one [open] that was denied. *)
Definition outcome {A} (w : world) (rw : result A * world) : Prop :=
  exists evs,
    trace (snd rw) = trace w ++ evs /\
    dom (fs w) ⊆ dom (fs (snd rw)) /\
    (forall q, In q (created evs) -> q ∈ dom (fs (snd rw))) /\
    match fst rw with
    | Return _ => Forall granted evs
    | Raise _ =>
        exists pre p m, evs = pre ++ [EvOpen p m false] /\ Forall granted pre
    end.

End SplitPure.

(** ** [test] of [split_data.py] *)

Module SplitTest.
Import SplitData.

Definition PATENTS : string := "patent.data".

(** [f.readline()] on a file that was just opened. *)
Definition py_readline (f : string) : M string := fun w =>
  (Return (Py.readline (contents w f)), w).

(** [f.close()]. *)
Definition py_close (f : string) : M unit := ret tt.

(** [for x in xs: body(x)]. *)
Fixpoint for_each {A} (xs : list A) (body : A -> M unit) : M unit :=
  match xs with
  | [] => ret tt
  | x :: xs' => body x ;;; for_each xs' body
  end.

Definition wrong_boundary (fname : string) : string :=
  "You have not split the file " +:+ fname +:+ " in the correct boundary!".

Definition not_found (fname : string) : string :=
  "Could not find file " +:+ fname +:+ ". Check if the filename is correct!".

(** The body of the loop of [test], for one [n]. *)
Definition test_file (n : Z) : M unit :=
  let fname := format PATENTS n in
  try_except
    (f <- py_open fname ModeR ;;
     line <- py_readline f ;;
     (if negb (Py.startswith line "<?xml")
      then py_print (wrong_boundary fname)
      else ret tt) ;;;
     py_close f)
    (py_print (not_found fname)).

(** [test]; [range(4)] is [[0; 1; 2; 3]]. *)
Definition test : M unit :=
  split_file PATENTS ;;;
  for_each [0; 1; 2; 3] test_file.

(** What the loop of [test] prints for [n] in the world [w]. *)
Definition report (w : world) (n : Z) : list string :=
  let fname := format PATENTS n in
  if perm w fname ModeR && bool_decide (is_Some (fs w !! fname)) then
    if Py.startswith (Py.readline (contents w fname)) "<?xml"
    then []
    else [wrong_boundary fname]
  else [not_found fname].

Definition four_patents : string :=
  three_patents +:+ "<?xml d?>" +:+ lf +:+ "<p4/>".

(** The paths [split_file filename] may write to. *)
Definition artifact_path (filename path : string) : Prop :=
  exists n, path = format filename n.

(** A run of a part of [split_file filename] that changes no permission
    and no file but those [split_file filename] may write to. *)
Definition confined {A} (filename : string) (w : world)
    (rw : result A * world) : Prop :=
  perm (snd rw) = perm w /\
  forall path, ~ artifact_path filename path ->
               fs (snd rw) !! path = fs w !! path.

End SplitTest.

(** ** [mapparser.py] *)

Module MapParser.
Import Xml.

Section count_tags.
(** [ET.iterparse], as for [process_map]. *)
Variable iterparse : string -> list (string * Element).

(** [count_tags]: a [dict] from tag names to [int]s. *)
Definition count_tags (filename : string) : gmap string Z :=
  foldl (fun tags ev =>
           let elem := snd ev in
           match tags !! tag elem with
           | Some c => <[tag elem := c + 1]> tags
           | None => <[tag elem := 1]> tags
           end) ∅ (iterparse filename).
End count_tags.

(** How many of the elements yielded have the tag [t]. *)
Definition occurrences (t : string) (evs : list (string * Element)) : nat :=
  List.length (List.filter (fun ev => String.eqb (tag (snd ev)) t) evs).

(** How many elements of the document with root [e] have the tag [t]. *)
Fixpoint in_document (t : string) (e : Element) : nat :=
  match e with
  | Elem tg _ cs =>
      ((if String.eqb tg t then 1 else 0) +
       (fix go (l : list Element) : nat :=
          match l with
          | [] => 0
          | c :: l' => in_document t c + go l'
          end) cs)%nat
  end.

(** The sum of the values of a [dict] of counts. *)
Definition total (tags : gmap string Z) : Z :=
  map_fold (fun _ c acc => c + acc) 0 tags.

End MapParser.

(** ** [audit.py]: the audit itself *)

Module AuditMap.
Import Xml Audit.

Definition expected : list string :=
  ["Street"; "Avenue"; "Boulevard"; "Drive"; "Court"; "Place"; "Square";
   "Lane"; "Road"; "Trail"; "Parkway"; "Commons"].

(** [audit_street_type].  [street_types] is a [defaultdict(set)]: looking
    up a missing key puts an empty set there.  The function changes the
    [dict] it is given; here it returns the new one. *)
Definition audit_street_type (street_types : gmap string (gset string))
    (street_name : string) : gmap string (gset string) :=
  match search street_type_re street_name with
  | Some m =>
      let street_type := group street_name m in
      if bool_decide (street_type ∈ expected) then street_types
      else
        <[street_type :=
            default ∅ (street_types !! street_type) ∪ {[ street_name ]}]>
          street_types
  | None => street_types
  end.

Inductive exn :=
| KeyError (key : string)
| IOError (path : string).

Inductive result (A : Type) :=
| Return (a : A)
| Raise (e : exn).
Arguments Return {A} a.
Arguments Raise {A} e.

(** [is_street_name]; [elem.attrib['k']] raises [KeyError] when the
    element has no attribute [k]. *)
Definition is_street_name (elem : Element) : result bool :=
  match attrib elem !! "k" with
  | Some k => Return (String.eqb k "addr:street")
  | None => Raise (KeyError "k")
  end.

(** [elem.iter()]: the element and all the elements below it, in the
    order of the document. *)
Fixpoint iter_all (e : Element) : list Element :=
  match e with
  | Elem _ _ cs =>
      e :: (fix go (l : list Element) : list Element :=
              match l with
              | [] => []
              | c :: l' => iter_all c ++ go l'
              end) cs
  end.

(** [elem.iter(t)]: those of them with the tag [t]. *)
Definition iter (t : string) (e : Element) : list Element :=
  List.filter (fun x => String.eqb (Xml.tag x) t) (iter_all e).

Section audit.
(** Whether [open(osmfile, "r")] succeeds. *)
Variable can_open : string -> bool.
(** What [ET.iterparse(osm_file, events=("start",))] yields for the file:
    with each event the element as it is when it is yielded.  How much of
    what is below an element the parser has read by then is the
    library's business. *)
Variable iterparse : string -> list (string * Element).

(** [for tag in elem.iter("tag"): ...], from the tags still to go. *)
Fixpoint audit_tags (tags : list Element)
    (street_types : gmap string (gset string))
    : result (gmap string (gset string)) :=
  match tags with
  | [] => Return street_types
  | tg :: tags' =>
      match is_street_name tg with
      | Raise e => Raise e
      | Return true =>
          match attrib tg !! "v" with
          | Some v => audit_tags tags' (audit_street_type street_types v)
          | None => Raise (KeyError "v")
          end
      | Return false => audit_tags tags' street_types
      end
  end.

(** [for event, elem in ET.iterparse(...): ...], from the events still to
    go. *)
Fixpoint audit_events (evs : list (string * Element))
    (street_types : gmap string (gset string))
    : result (gmap string (gset string)) :=
  match evs with
  | [] => Return street_types
  | (event, elem) :: evs' =>
      if String.eqb (Xml.tag elem) "node" || String.eqb (Xml.tag elem) "way"
      then
        match audit_tags (iter "tag" elem) street_types with
        | Return street_types' => audit_events evs' street_types'
        | Raise e => Raise e
        end
      else audit_events evs' street_types
  end.

Definition audit (osmfile : string) : result (gmap string (gset string)) :=
  if can_open osmfile
  then audit_events (iterparse osmfile) ∅
  else Raise (IOError osmfile).
End audit.

(** [name] is filed under [street_type] in [street_types]. *)
Definition filed (street_types : gmap string (gset string))
    (street_type name : string) : Prop :=
  exists names, street_types !! street_type = Some names /\ name ∈ names.

(** The [tag] elements the audit looks at: those below a [node] or a
    [way] that was yielded. *)
Definition audited (evs : list (string * Element)) (t : Element) : Prop :=
  exists ev elem,
    In (ev, elem) evs /\
    (Xml.tag elem = "node" \/ Xml.tag elem = "way") /\
    In t (iter "tag" elem).

(** The street names the audit meets. *)
Definition street_name_of (t : Element) (name : string) : Prop :=
  attrib t !! "k" = Some "addr:street" /\ attrib t !! "v" = Some name.

(** Every [tag] element the audit looks at has a [k], and a [v] when it
    is a street name. *)
Definition well_tagged (evs : list (string * Element)) : Prop :=
  forall t, audited evs t ->
    is_Some (attrib t !! "k") /\
    (attrib t !! "k" = Some "addr:street" -> is_Some (attrib t !! "v")).

(** Whether every character of [s] is in [cls]. *)
Fixpoint all_chars (cls : ascii -> bool) (s : string) : bool :=
  match s with
  | EmptyString => true
  | String c s' => cls c && all_chars cls s'
  end.

(** Whether [s] starts with a word character. *)
Definition starts_with_word (s : string) : bool :=
  match s with
  | String c _ => is_word c
  | EmptyString => false
  end.

(** A word the way [street_type_re] wants the last one: characters that
    are no white space, the first one a word character. *)
Definition is_token (w : string) : Prop :=
  all_chars not_space w = true /\ starts_with_word w = true.

(** *** Sample names *)

Definition sample_tag (k v : string) : Element :=
  Elem "tag" (<["k" := k]> (<["v" := v]> ∅)) [].

Definition sample_node : Element :=
  Elem "node" ∅ [sample_tag "addr:street" "Baldwin Rd.";
                 sample_tag "addr:city" "San Francisco";
                 sample_tag "addr:street" "Main Street"].

Definition sample_start (filename : string) : list (string * Element) :=
  [("start", Elem "osm" ∅ []); ("start", sample_node);
   ("start", sample_tag "addr:street" "Nowhere Ln")].

End AuditMap.

(** ** [process.py] *)

Module Process.

Definition datadir : string := "data".

(** The values [process_file] handles: strings, integers, and references
    to [dict] objects.  A [dict] lives in the heap, so that two
    references to one [dict] see the same items. *)
Inductive value :=
| VStr (s : string)
| VInt (n : Z)
| VRef (r : nat).

Inductive exn :=
| ValueError
| IOError (path : string)
| AttributeError
| IndexError
| KeyError (key : string)
| TypeError.

Inductive result (A : Type) :=
| Return (a : A)
| Raise (e : exn).
Arguments Return {A} a.
Arguments Raise {A} e.

(** The heap maps the reference of a [dict] to its items. *)
Definition M (A : Type) : Type :=
  gmap nat (gmap string value) -> result A * gmap nat (gmap string value).

Definition ret {A} (a : A) : M A := fun h => (Return a, h).

Definition bind {A B} (m : M A) (k : A -> M B) : M B := fun h =>
  match m h with
  | (Return a, h') => k a h'
  | (Raise e, h') => (Raise e, h')
  end.

Definition raise {A} (e : exn) : M A := fun h => (Raise e, h).

Notation "x <- m ;; k" := (bind m (fun x => k))
  (at level 100, m at next level, right associativity).
Notation "m ;;; k" := (bind m (fun _ => k))
  (at level 100, right associativity).

(** [{}]: a new, empty [dict]. *)
Definition new_dict : M nat := fun h =>
  let r := fresh (dom h) in (Return r, <[r := ∅]> h).

(** [d[key] = v], for the [dict] with reference [r]. *)
Definition set_item (r : nat) (key : string) (v : value) : M unit := fun h =>
  (Return tt, alter (fun d => <[key := v]> d) r h).

(** [d[key]]. *)
Definition get_item (r : nat) (key : string) : M value := fun h =>
  match h !! r ≫= (fun d => d !! key) with
  | Some v => (Return v, h)
  | None => (Raise (KeyError key), h)
  end.

(** [v[key] = x]: [v] has to be a [dict]. *)
Definition set_item_of (v : value) (key : string) (x : value) : M unit :=
  match v with
  | VRef r => set_item r key x
  | _ => raise TypeError
  end.

(** [l[i]] on a list. *)
Definition index (l : list string) (i : nat) : M string :=
  match l !! i with
  | Some x => ret x
  | None => raise IndexError
  end.

(** [s.split(sep)] for a separator of one character. *)
Fixpoint split (sep : ascii) (s : string) : list string :=
  match s with
  | EmptyString => [EmptyString]
  | String c s' =>
      if Ascii.eqb c sep then EmptyString :: split sep s'
      else match split sep s' with
           | h :: t => String c h :: t
           | [] => [String c EmptyString]
           end
  end.

(** How many times [sep] is in [s]. *)
Fixpoint count_char (sep : ascii) (s : string) : nat :=
  match s with
  | EmptyString => O
  | String c s' => ((if Ascii.eqb c sep then 1 else 0) + count_char sep s')%nat
  end.

(** A row that is not the total of a year. *)
Definition kept (entryData : list string) : bool :=
  match entryData !! 1%nat with
  | Some c => negb (String.eqb c "TOTAL")
  | None => false
  end.

Section process_file.
(** [int] on a string; [None] stands for [ValueError]. *)
Variable py_int : string -> option Z.
(** Whether [open(path, "r")] succeeds. *)
Variable can_open : string -> bool.
(** What BeautifulSoup finds in the file at a path: for each [tr] of
    class [dataTDRight] of the first [table] of class [dataTDRight], the
    texts of its [td] cells; [None] when there is no such table, so that
    [find] returns [None]. *)
Variable rows_of : string -> option (list (list string)).

Definition to_int (s : string) : M Z :=
  match py_int s with
  | Some n => ret n
  | None => raise ValueError
  end.

(** [for e in entries: ...], from the rows still to go; [info] is the
    reference of the one [dict] made before the loop. *)
Fixpoint process_rows (info : nat) (entries : list (list string))
    (data : list value) : M (list value) :=
  match entries with
  | [] => ret data
  | entryData :: entries' =>
      c1 <- index entryData 1 ;;
      if negb (String.eqb c1 "TOTAL") then
        c0 <- index entryData 0 ;;
        year <- to_int c0 ;;
        set_item info "year" (VInt year) ;;;
        c1 <- index entryData 1 ;;
        month <- to_int c1 ;;
        set_item info "month" (VInt month) ;;;
        flights <- new_dict ;;
        set_item info "flights" (VRef flights) ;;;
        c2 <- index entryData 2 ;;
        domestic <- to_int (Audit.replace c2 "," EmptyString) ;;
        fl <- get_item info "flights" ;;
        set_item_of fl "domestic" (VInt domestic) ;;;
        c3 <- index entryData 3 ;;
        international <- to_int (Audit.replace c3 "," EmptyString) ;;
        fl <- get_item info "flights" ;;
        set_item_of fl "international" (VInt international) ;;;
        process_rows info entries' (data ++ [VRef info])
      else process_rows info entries' data
  end.

(** [process_file].  [a, b = l] raises [ValueError] unless [l] has two
    items. *)
Definition process_file (f : string) : M (list value) :=
  let data : list value := [] in
  info <- new_dict ;;
  match split "-" (substring 0 6 f) with
  | [courier; airport] =>
      set_item info "courier" (VStr courier) ;;;
      set_item info "airport" (VStr airport) ;;;
      let path := datadir +:+ "/" +:+ f in
      if can_open path then
        match rows_of path with
        | Some entries => process_rows info entries data
        | None => raise AttributeError
        end
      else raise (IOError path)
  | _ => raise ValueError
  end.
End process_file.

(** [data[i][key]] in the heap [h]. *)
Definition item (h : gmap nat (gmap string value)) (v : value)
    (key : string) : option value :=
  match v with
  | VRef r => h !! r ≫= (fun d => d !! key)
  | _ => None
  end.

(** *** A sample table *)

Definition sample_int (s : string) : option Z :=
  match NilZero.int_of_string s with
  | Some d => Some (Z.of_int d)
  | None => None
  end.

Definition sample_rows (path : string) : option (list (list string)) :=
  Some [ ["2002"; "10"; "815,489"; "92,565"];
         ["2002"; "TOTAL"; "8,085,083"; "1,023,994"];
         ["2003"; "1"; "785,160"; "89,463"] ].

End Process.

(** * Facts about the Python primitives *)

Section py_facts.
Import Py.

Lemma append_empty_r (s : string) : s +:+ EmptyString = s.
Proof. induction s as [|c s IH]; simpl; [done | by rewrite IH]. Qed.

Lemma append_assoc (a b c : string) : (a +:+ b) +:+ c = a +:+ (b +:+ c).
Proof. induction a as [|x a IH]; simpl; [done | by rewrite IH]. Qed.

Lemma append_length (a b : string) :
  String.length (a +:+ b) = (String.length a + String.length b)%nat.
Proof. induction a as [|x a IH]; simpl; [done | by rewrite IH]. Qed.

Lemma join_app (xs ys : list string) : join (xs ++ ys) = join xs +:+ join ys.
Proof.
  induction xs as [|x xs IH]; simpl; [done |].
  by rewrite IH, append_assoc.
Qed.

Lemma join_concat (xss : list (list string)) :
  join (concat xss) = join (map join xss).
Proof.
  induction xss as [|xs xss IH]; simpl; [done |].
  by rewrite join_app, IH.
Qed.

(** Iterating over a file loses nothing: the lines put together are the
    contents. *)
Lemma join_file_lines (s : string) : join (file_lines s) = s.
Proof.
  induction s as [|c s IH]; simpl; [done |].
  destruct (Ascii.eqb c newline); simpl.
  - by rewrite IH.
  - destruct (file_lines s) as [|l ls]; simpl in *; by rewrite <- IH.
Qed.

Lemma file_lines_nonempty (s : string) :
  Forall (fun l => l <> EmptyString) (file_lines s).
Proof.
  induction s as [|c s IH]; simpl; [constructor |].
  destruct (Ascii.eqb c newline).
  - by constructor.
  - destruct (file_lines s) as [|l ls].
    + by repeat constructor.
    + inversion IH; subst. by constructor.
Qed.

Lemma file_lines_nil (s : string) : file_lines s = [] -> s = EmptyString.
Proof. intros H. by rewrite <- (join_file_lines s), H. Qed.

(** [readline] gives the first of the lines. *)
Lemma readline_file_lines (s l : string) (ls : list string) :
  file_lines s = l :: ls -> readline s = l.
Proof.
  revert l ls. induction s as [|c s IH]; intros l ls; cbn; [done |].
  destruct (Ascii.eqb c newline); [by intros [= <- _] |].
  destruct (file_lines s) as [|l' ls'] eqn:E.
  - apply file_lines_nil in E as ->. by intros [= <- _].
  - intros [= <- _]. by rewrite (IH l' ls').
Qed.

Lemma prefix_empty (s : string) : String.prefix EmptyString s = true.
Proof. by destruct s. Qed.

Lemma startswith_app (l r p : string) :
  startswith l p = true -> startswith (l +:+ r) p = true.
Proof.
  unfold startswith. revert l.
  induction p as [|c p IH]; intros l; [by rewrite !prefix_empty |].
  destruct l as [|d l]; simpl; [done |].
  destruct (Ascii.ascii_dec c d); [apply IH | done].
Qed.

(** Whether the first line starts with [p] can be read off the contents,
    for a [p] with no newline in it. *)
Lemma startswith_readline (s p : string) :
  (forall c, String.get 0 p = Some c -> c <> newline) ->
  (forall n c, String.get (S n) p = Some c -> c <> newline) ->
  startswith (readline s) p = startswith s p.
Proof.
  unfold startswith. revert s.
  induction p as [|c p IH]; intros s H0 HS.
  - by rewrite !prefix_empty.
  - destruct s as [|d s]; simpl; [done |].
    destruct (Ascii.eqb_spec d newline) as [-> | Hd]; simpl.
    + destruct (Ascii.ascii_dec c newline) as [E | _]; [|done].
      by destruct (H0 c).
    + destruct (Ascii.ascii_dec c d); [|done].
      apply IH.
      * intros x Hx. by apply (HS O).
      * intros n x Hx. by apply (HS (S n)).
Qed.

Lemma declaration_readline (s : string) :
  startswith (readline s) "<?xml" = startswith s "<?xml".
Proof.
  apply startswith_readline.
  - by intros c [= <-].
  - intros n c.
    do 4 (destruct n as [|n]; [by intros [= <-] |]).
    done.
Qed.

(** [str] gives different numbers different numerals. *)
Lemma str_inj (n m : Z) : str n = str m -> n = m.
Proof.
  unfold str. intros H. apply DecimalZ.to_int_inj.
  assert (Hnn : forall z, Z.to_int z <> Decimal.Pos Decimal.Nil /\
                          Z.to_int z <> Decimal.Neg Decimal.Nil).
  { intros [|q|q]; simpl; split; try done;
      intros [= E]; by apply DecimalPos.Unsigned.to_uint_nonnil in E. }
  assert (E : Some (Z.to_int n) = Some (Z.to_int m)); [|by injection E].
  rewrite <- (NilZero.isi (Z.to_int n)), <- (NilZero.isi (Z.to_int m));
    try apply Hnn.
  by rewrite H.
Qed.

End py_facts.

(** * The document splitter *)

Section split_facts.
Import Py SplitData SplitPure.

Lemma format_inj (filename : string) (n m : Z) :
  format filename n = format filename m -> n = m.
Proof.
  unfold format. intros H.
  apply String.app_inj in H. apply String.app_inj in H.
  by apply str_inj.
Qed.

(** No output artifact is the source. *)
Lemma format_not_source (filename : string) (n : Z) :
  format filename n <> filename.
Proof.
  unfold format. intros H.
  apply (f_equal String.length) in H.
  rewrite !append_length in H. simpl in H. lia.
Qed.

Lemma index_last_snoc (lines : list string) (line : string) (w : world) :
  index_last (lines ++ [line]) w = (Return line, w).
Proof. unfold index_last. by rewrite rev_unit. Qed.

Lemma write_lines_insert (f : string) (ls : list string) :
  forall (c : string) (w : world),
    fs w !! f = Some c ->
    write_lines f ls w = (Return tt, set_fs (<[f := c +:+ join ls]> (fs w)) w).
Proof.
  induction ls as [|l ls IH]; intros c w Hc; simpl.
  - unfold ret, set_fs. rewrite append_empty_r, insert_id by done.
    by destruct w.
  - unfold bind, py_write.
    rewrite (IH (c +:+ l)).
    + unfold set_fs; simpl.
      by rewrite insert_alter_eq, append_assoc.
    + simpl. by rewrite lookup_alter_eq, Hc.
Qed.

(** Opening a file for writing and writing [ls] to it is one flush. *)
Lemma flush_run (filename : string) (n : Z) (ls : list string) (w : world) :
  perm w (format filename n) ModeW = true ->
  (f <- py_open (format filename n) ModeW ;; write_lines f ls) w =
  (Return tt, flush_one filename (n, ls) w).
Proof.
  intros Hp. unfold bind, py_open. rewrite Hp.
  rewrite (write_lines_insert _ _ EmptyString)
    by (simpl; apply lookup_insert_eq).
  unfold flush_one, log, set_fs; simpl.
  by rewrite insert_insert_eq.
Qed.

Lemma flush_all_perm (filename : string) (fl : list (Z * list string)) :
  forall w, perm (flush_all filename fl w) = perm w.
Proof.
  unfold flush_all.
  induction fl as [|a fl IH]; intros w; [done |].
  cbn [foldl]. by rewrite IH.
Qed.

(** [split_loop] does what [loop_pure] says. *)
Lemma split_loop_pure (filename : string) (input : list string) :
  forall (n : Z) (lines : list string) (w : world),
    (forall m, perm w (format filename m) ModeW = true) ->
    split_loop filename input n lines w =
    (Return (snd (loop_pure input n lines)),
     flush_all filename (fst (loop_pure input n lines)) w).
Proof.
  induction input as [|line input IH]; intros n lines w Hp; [done |].
  cbn [split_loop loop_pure]. unfold is_declaration.
  destruct (startswith line "<?xml") eqn:Hd; cbn [andb];
    [destruct (n =? 0) |]; try by apply IH.
  pose proof (flush_run filename (n - 1) lines w (Hp _)) as Hf.
  unfold bind in *. unfold py_open in *. rewrite Hp in *.
  rewrite index_last_snoc, Hd, removelast_last.
  rewrite Hf, index_last_snoc, IH; [done |].
  intros m. apply Hp.
Qed.

(** A run of [split_file] in which every [open] is granted. *)
Lemma split_file_run (filename blob : string) (w : world) :
  grants w filename ->
  fs w !! filename = Some blob ->
  split_file filename w =
  (Return tt,
   flush_all filename (flushes (file_lines blob))
             (log (EvOpen filename ModeR true) w)).
Proof.
  intros [Hr Hw] Hb.
  unfold split_file, try_except, split_body, bind at 1.
  unfold py_open at 1. rewrite Hr, Hb.
  rewrite bool_decide_eq_true_2 by eauto. cbn [andb].
  unfold bind at 1, py_lines. cbn [fs log]. rewrite Hb.
  change (default EmptyString (Some blob)) with blob.
  unfold bind at 1. change (Z.of_nat (List.length [])) with 0.
  rewrite split_loop_pure by (intros m; apply Hw).
  unfold flushes.
  destruct (loop_pure (file_lines blob) 0 []) as [out [n lines]].
  cbn [fst snd].
  rewrite flush_run by (rewrite flush_all_perm; apply Hw).
  unfold flush_all. by rewrite foldl_app.
Qed.

(** *** The artifacts of a run *)

Lemma flush_all_trace (filename : string) (fl : list (Z * list string)) :
  forall w,
    trace (flush_all filename fl w) =
    trace w ++ map (fun a => EvOpen (format filename (fst a)) ModeW true) fl.
Proof.
  unfold flush_all.
  induction fl as [|a fl IH]; intros w; cbn [foldl map].
  - by rewrite app_nil_r.
  - rewrite IH. cbn [flush_one log trace set_fs]. by rewrite <- app_assoc.
Qed.

Lemma created_flushes (filename : string) (fl : list (Z * list string)) :
  created (map (fun a => EvOpen (format filename (fst a)) ModeW true) fl) =
  map (fun a => format filename (fst a)) fl.
Proof. induction fl as [|a fl IH]; [done |]. cbn. by f_equal. Qed.

Lemma new_events_app (w w' : world) (evs : list event) :
  trace w' = trace w ++ evs -> new_events w w' = evs.
Proof. unfold new_events. intros ->. by rewrite drop_app_length. Qed.

Lemma flush_all_lookup_other (filename p : string)
    (fl : list (Z * list string)) :
  forall w,
    (forall a, In a fl -> format filename (fst a) <> p) ->
    fs (flush_all filename fl w) !! p = fs w !! p.
Proof.
  unfold flush_all.
  induction fl as [|a fl IH]; intros w Hne; cbn [foldl]; [done |].
  rewrite IH by (intros b Hb; apply Hne; by right).
  cbn [flush_one log fs set_fs].
  apply lookup_insert_ne, Hne. by left.
Qed.

Lemma flush_all_lookup (filename : string) (fl : list (Z * list string)) :
  forall w a,
    NoDup (map fst fl) -> In a fl ->
    fs (flush_all filename fl w) !! format filename (fst a) =
    Some (join (snd a)).
Proof.
  induction fl as [|b fl IH]; intros w a Hnd Ha; [done |].
  cbn [map] in Hnd. apply NoDup_cons in Hnd as [Hb Hnd].
  change (flush_all filename (b :: fl) w)
    with (flush_all filename fl (flush_one filename b w)).
  destruct Ha as [-> | Ha]; [|by apply IH].
  rewrite flush_all_lookup_other.
  - cbn [flush_one log fs set_fs]. apply lookup_insert_eq.
  - intros c Hc E. apply format_inj in E.
    apply Hb, list_elem_of_In, in_map_iff. eauto.
Qed.

(** The artifacts of a run in which every [open] is granted, from the
    flushes of the pure loop. *)
Lemma artifacts_run (filename blob : string) (w : world) :
  grants w filename ->
  fs w !! filename = Some blob ->
  NoDup (map fst (flushes (file_lines blob))) ->
  artifacts filename w =
  map (fun a => (format filename (fst a), join (snd a)))
      (flushes (file_lines blob)).
Proof.
  intros Hg Hb Hnd. unfold artifacts.
  rewrite (split_file_run _ _ _ Hg Hb). cbn [snd].
  erewrite new_events_app; cycle 1.
  { rewrite flush_all_trace. cbn [log trace].
    rewrite <- app_assoc. reflexivity. }
  change (created ([?e] ++ ?l)) with (created l).
  rewrite created_flushes, map_map.
  apply map_ext_in. intros a Ha. f_equal.
  unfold contents. by rewrite flush_all_lookup.
Qed.

(** [split_file] leaves the source as it is. *)
Lemma split_file_source_kept (filename blob : string) (w : world) :
  grants w filename ->
  fs w !! filename = Some blob ->
  fs (snd (split_file filename w)) !! filename = Some blob.
Proof.
  intros Hg Hb. rewrite (split_file_run _ _ _ Hg Hb). cbn [snd].
  rewrite flush_all_lookup_other; [done |].
  intros a _. apply format_not_source.
Qed.

(** *** The numbers in the names *)

Lemma loop_pure_ordinals (input : list string) :
  forall n lines,
    1 <= n ->
    map fst (fst (loop_pure input n lines)) =
      map (fun i => n - 1 + Z.of_nat i) (seq 0 (count_declarations input)) /\
    fst (snd (loop_pure input n lines)) =
      n + Z.of_nat (count_declarations input).
Proof.
  unfold count_declarations.
  induction input as [|line input IH]; intros n lines Hn; cbn [loop_pure].
  - cbn. split; [done | lia].
  - cbn [List.filter]. destruct (is_declaration line); [|by apply IH].
    destruct (Z.eqb_spec n 0) as [-> | _]; [lia |].
    destruct (IH (n + 1) [line]) as [IH1 IH2]; [lia |].
    cbn [fst snd map List.length seq]. rewrite IH1, IH2. split; [|lia].
    f_equal; [lia |].
    rewrite <- seq_shift, map_map.
    apply map_ext. intros i. lia.
Qed.

Lemma flushes_ordinals (input : list string) :
  map fst (flushes input) =
  match count_declarations input with
  | O => [-1]
  | S _ => map Z.of_nat (seq 0 (count_declarations input))
  end.
Proof.
  unfold flushes. rewrite map_app. cbn [map fst].
  generalize (@nil string).
  unfold count_declarations.
  induction input as [|line input IH]; intros lines; cbn [loop_pure].
  - done.
  - cbn [List.filter]. destruct (is_declaration line); [|by apply IH].
    cbn [Z.eqb List.length].
    destruct (loop_pure_ordinals input (0 + 1) (lines ++ [line]))
      as [H1 H2]; [lia |].
    rewrite H1, H2. unfold count_declarations.
    rewrite seq_S, map_app. cbn [map].
    apply (f_equal2 (@app Z)); [|f_equal; lia].
    apply map_ext. intros i. lia.
Qed.

Lemma flushes_ordinals_NoDup (input : list string) :
  NoDup (map fst (flushes input)).
Proof.
  rewrite flushes_ordinals.
  destruct (count_declarations input).
  - apply NoDup_singleton.
  - apply NoDup_ListNoDup, Finite.Injective_map_NoDup; [|apply List.seq_NoDup].
    intros i j. lia.
Qed.

Lemma flushes_length (input : list string) :
  List.length (flushes input) = Nat.max 1 (count_declarations input).
Proof.
  rewrite <- (length_map fst), flushes_ordinals.
  destruct (count_declarations input) as [|k]; [done |].
  rewrite length_map, length_seq. lia.
Qed.

(** *** The lines in the flushes *)

Lemma loop_pure_concat (input : list string) :
  forall n lines,
    concat (map snd (fst (loop_pure input n lines))) ++
      snd (snd (loop_pure input n lines)) = lines ++ input.
Proof.
  induction input as [|line input IH]; intros n lines; cbn [loop_pure].
  - cbn. by rewrite app_nil_r.
  - destruct (is_declaration line); [destruct (n =? 0) |];
      cbn [fst snd map concat]; rewrite <- ?app_assoc, IH, <- ?app_assoc; done.
Qed.

Lemma flushes_concat (input : list string) :
  concat (map snd (flushes input)) = input.
Proof.
  unfold flushes. rewrite map_app, concat_app. cbn [map snd concat].
  rewrite app_nil_r. apply (loop_pure_concat input 0 []).
Qed.

Lemma headed_snoc (lines : list string) (line : string) :
  headed lines -> headed (lines ++ [line]).
Proof. by destruct lines. Qed.

Lemma loop_pure_headed (input : list string) :
  forall n lines,
    1 <= n -> headed lines ->
    Forall headed (map snd (fst (loop_pure input n lines))) /\
    headed (snd (snd (loop_pure input n lines))).
Proof.
  induction input as [|line input IH]; intros n lines Hn Hl;
    cbn [loop_pure].
  - by split; [constructor |].
  - destruct (is_declaration line) eqn:Hd.
    + destruct (Z.eqb_spec n 0) as [-> | _]; [lia |].
      destruct (IH (n + 1) [line]) as [IH1 IH2]; [lia | done |].
      cbn [fst snd map]. split; [by constructor | done].
    + apply IH; [done | by apply headed_snoc].
Qed.

Lemma flushes_headed (line : string) (input : list string) :
  is_declaration line = true ->
  Forall headed (map snd (flushes (line :: input))).
Proof.
  intros Hd. unfold flushes. cbn [loop_pure]. rewrite Hd. cbn [Z.eqb].
  destruct (loop_pure_headed input (0 + 1) ([] ++ [line])) as [H1 H2];
    [lia | done |].
  rewrite map_app. apply Forall_app. split; [done |].
  by repeat constructor.
Qed.

Lemma loop_pure_nonempty (input : list string) :
  forall n lines,
    lines <> [] ->
    Forall (fun c => c <> []) (map snd (fst (loop_pure input n lines))) /\
    snd (snd (loop_pure input n lines)) <> [].
Proof.
  induction input as [|line input IH]; intros n lines Hl; cbn [loop_pure].
  - by split; [constructor |].
  - assert (Hs : lines ++ [line] <> []) by (by destruct lines).
    destruct (is_declaration line); [destruct (n =? 0) |]; try by apply IH.
    destruct (IH (n + 1) [line]) as [IH1 IH2]; [done |].
    cbn [fst snd map]. split; [by constructor | done].
Qed.

Lemma flushes_nonempty (input : list string) :
  input <> [] -> Forall (fun c => c <> []) (map snd (flushes input)).
Proof.
  destruct input as [|line input]; [done |]. intros _.
  unfold flushes. rewrite map_app. apply Forall_app.
  cbn [loop_pure Z.eqb].
  assert (H : forall n, Forall (fun c => c <> [])
      (map snd (fst (loop_pure input n ([] ++ [line])))) /\
      snd (snd (loop_pure input n ([] ++ [line]))) <> [])
    by (intros n; by apply loop_pure_nonempty).
  destruct (is_declaration line); (split; [apply H |]);
    repeat constructor; apply H.
Qed.

(** With a declaration line in the source, every flush has exactly one,
    and the flushes have them in the order of the source. *)
Lemma loop_pure_declarations (input : list string) :
  forall n lines d,
    1 <= n -> List.filter is_declaration lines = [d] ->
    map (List.filter is_declaration)
        (map snd (fst (loop_pure input n lines)) ++
         [snd (snd (loop_pure input n lines))]) =
    map (fun x => [x]) (d :: List.filter is_declaration input).
Proof.
  induction input as [|line input IH]; intros n lines d Hn Hl;
    cbn [loop_pure].
  - cbn. by rewrite Hl.
  - cbn [List.filter]. destruct (is_declaration line) eqn:Hd.
    + destruct (Z.eqb_spec n 0) as [-> | _]; [lia |].
      cbn [fst snd map app]. rewrite Hl.
      rewrite (IH (n + 1) [line] line); [done | lia |].
      cbn. by rewrite Hd.
    + apply IH; [done |].
      rewrite List.filter_app, Hl. cbn. by rewrite Hd.
Qed.

Lemma flushes_declarations (input : list string) :
  (1 <= count_declarations input)%nat ->
  map (List.filter is_declaration) (map snd (flushes input)) =
  map (fun x => [x]) (List.filter is_declaration input).
Proof.
  unfold flushes, count_declarations. rewrite map_app. cbn [map snd].
  enough (H : forall lines,
    List.filter is_declaration lines = [] ->
    (1 <= List.length (List.filter is_declaration input))%nat ->
    map (List.filter is_declaration)
        (map snd (fst (loop_pure input 0 lines)) ++
         [snd (snd (loop_pure input 0 lines))]) =
    map (fun x => [x]) (List.filter is_declaration input))
    by (by apply H).
  induction input as [|line input IH]; intros lines Hl Hk;
    cbn [loop_pure]; [cbn in Hk; lia |].
  cbn [List.filter] in *. destruct (is_declaration line) eqn:Hd.
  - cbn [Z.eqb]. apply loop_pure_declarations; [lia |].
    rewrite List.filter_app, Hl. cbn. by rewrite Hd.
  - apply IH; [|done].
    rewrite List.filter_app, Hl. cbn. by rewrite Hd.
Qed.

(** When the source ends on a declaration line, the loop ends with that
    line alone in [lines]. *)
Lemma loop_pure_last (input : list string) :
  forall n lines l,
    1 <= n -> last input = Some l -> is_declaration l = true ->
    snd (snd (loop_pure input n lines)) = [l].
Proof.
  induction input as [|x input IH]; intros n lines l Hn Hlast Hd; [done |].
  cbn [loop_pure].
  destruct input as [|y input].
  - injection Hlast as ->. rewrite Hd.
    destruct (Z.eqb_spec n 0) as [-> | _]; [lia | done].
  - change (last (x :: y :: input)) with (last (y :: input)) in Hlast.
    destruct (is_declaration x); [|by apply IH].
    destruct (Z.eqb_spec n 0) as [-> | _]; [lia |].
    cbn [snd]. apply IH; [lia | done..].
Qed.

Lemma flushes_last (input : list string) (l : string) :
  last input = Some l -> is_declaration l = true ->
  (2 <= count_declarations input)%nat ->
  last (flushes input) =
  Some (Z.of_nat (count_declarations input) - 1, [l]).
Proof.
  unfold flushes. rewrite last_snoc. intros Hlast Hd.
  unfold count_declarations.
  enough (H : forall lines,
    (2 <= List.length (List.filter is_declaration input))%nat ->
    Some (fst (snd (loop_pure input 0 lines)) - 1,
          snd (snd (loop_pure input 0 lines))) =
    Some (Z.of_nat (List.length (List.filter is_declaration input)) - 1,
          [l]))
    by apply H.
  induction input as [|x input IH]; intros lines Hk; [done |].
  cbn [loop_pure List.filter] in *.
  assert (Hin : input <> []).
  { intros ->. destruct (is_declaration x); cbn in Hk; lia. }
  assert (Hlast' : last input = Some l) by (by destruct input).
  destruct (is_declaration x).
  - cbn [Z.eqb List.length] in *.
    destruct (loop_pure_ordinals input (0 + 1) (lines ++ [x])) as [_ H2];
      [lia |].
    rewrite H2, (loop_pure_last input (0 + 1) _ l) by (done || lia).
    unfold count_declarations. do 2 f_equal. lia.
  - by apply IH.
Qed.

(** *** From lines back to contents *)

Lemma file_lines_terminated (l s : string) :
  terminated l = true -> file_lines (l +:+ s) = l :: file_lines s.
Proof.
  induction l as [|c l IH]; [done |]. cbn [terminated].
  change (String c l +:+ s) with (String c (l +:+ s)). cbn [file_lines].
  destruct (Ascii.eqb c newline).
  - by destruct l.
  - intros H. by rewrite IH.
Qed.

Lemma file_lines_unterminated (l : string) :
  unterminated l = true -> file_lines l = [l].
Proof.
  induction l as [|c l IH]; [done |]. cbn [unterminated file_lines].
  destruct (Ascii.eqb c newline); [done |].
  destruct l as [|d l]; [done |].
  intros H. by rewrite IH.
Qed.

Lemma file_lines_shaped (s : string) : file_shaped (file_lines s).
Proof.
  induction s as [|c s IH]; cbn [file_lines]; [constructor |].
  destruct (Ascii.eqb c newline) eqn:Hc.
  - apply shaped_cons; [|done]. cbn. by rewrite Hc.
  - destruct (file_lines s) as [|l ls].
    + apply shaped_last. cbn. by rewrite Hc.
    + inversion IH as [|? Hu|? ? Ht Hs]; subst.
      * apply shaped_last. cbn [unterminated]. rewrite Hc.
        destruct l; [done | exact Hu].
      * apply shaped_cons; [|done]. cbn [terminated]. by rewrite Hc.
Qed.

Lemma shaped_file_lines (ls : list string) :
  file_shaped ls -> file_lines (join ls) = ls.
Proof.
  induction 1 as [|l Hu|l ls Ht Hs IH]; cbn [join].
  - done.
  - rewrite append_empty_r. by apply file_lines_unterminated.
  - by rewrite file_lines_terminated, IH.
Qed.

Lemma shaped_app (a b : list string) :
  file_shaped (a ++ b) -> file_shaped a /\ file_shaped b.
Proof.
  induction a as [|x a IH]; cbn [app]; intros H.
  - split; [constructor | done].
  - remember (x :: a ++ b) as xs eqn:E.
    destruct H as [|l Hu|l ls Ht Hs]; [done | |].
    + injection E as -> E. symmetry in E.
      apply app_eq_nil in E as [-> ->].
      split; [by apply shaped_last | constructor].
    + injection E as -> ->.
      destruct (IH Hs). split; [by apply shaped_cons | done].
Qed.

Lemma shaped_concat (xss : list (list string)) :
  file_shaped (concat xss) -> Forall file_shaped xss.
Proof.
  induction xss as [|xs xss IH]; cbn [concat]; intros H; [constructor |].
  apply shaped_app in H as [H1 H2]. constructor; auto.
Qed.

Lemma flushes_shaped (blob : string) :
  Forall file_shaped (map snd (flushes (file_lines blob))).
Proof.
  apply shaped_concat. rewrite flushes_concat. apply file_lines_shaped.
Qed.

Lemma list_last_map {A B} (f : A -> B) (l : list A) :
  last (map f l) = f <$> last l.
Proof.
  induction l as [|x l IH]; [done |].
  destruct l as [|y l]; [done |]. exact IH.
Qed.

Lemma sorted_ordinals (k : nat) :
  forall a, StronglySorted Z.lt (map Z.of_nat (seq a k)).
Proof.
  induction k as [|k IH]; intros a; cbn [seq map]; constructor; [apply IH |].
  apply List.Forall_forall. intros x Hx.
  apply in_map_iff in Hx as (i & <- & Hi). apply in_seq in Hi. lia.
Qed.

(** *** A source without a declaration line *)

Lemma flushes_no_declaration (input : list string) :
  count_declarations input = O -> flushes input = [(-1, input)].
Proof.
  intros Hk.
  pose proof (flushes_ordinals input) as Ho.
  pose proof (flushes_concat input) as Hc.
  rewrite Hk in Ho.
  destruct (flushes input) as [|[o ls] [|b fl]]; try done.
  cbn in Ho, Hc. rewrite app_nil_r in Hc. by injection Ho as ->; subst.
Qed.

Lemma split_file_no_declaration (filename blob : string) (w : world) :
  grants w filename ->
  fs w !! filename = Some blob ->
  declarations blob = O ->
  split_file filename w =
    (Return tt,
     {| perm := perm w;
        fs := <[format filename (-1) := blob]> (fs w);
        trace := trace w ++ [EvOpen filename ModeR true;
                             EvOpen (format filename (-1)) ModeW true] |}) /\
  artifacts filename w = [(format filename (-1), blob)].
Proof.
  intros Hg Hb Hk.
  pose proof (flushes_no_declaration (file_lines blob) Hk) as Hf.
  split.
  - rewrite (split_file_run _ _ _ Hg Hb), Hf.
    unfold flush_all, flush_one, log, set_fs.
    cbn [foldl fst snd fs perm trace].
    by rewrite join_file_lines, <- app_assoc.
  - rewrite (artifacts_run _ _ _ Hg Hb), Hf.
    + cbn [map fst snd]. by rewrite join_file_lines.
    + apply flushes_ordinals_NoDup.
Qed.

(** In a sample world that denies nothing, all is granted. *)
Ltac sample_grants := split; [reflexivity | intros ?; reflexivity].

(** *** Runs without failure *)

(** C1.  A source with [k >= 1] declaration lines gives exactly [k]
    artifacts; they are named [filename-0], ..., [filename-(k-1)], in
    this order, the names are pairwise different, and the [n]-th
    artifact holds the [n]-th declaration line of the source and no
    other declaration line. *)
Theorem split_file_names (filename blob : string) (w : world) :
  grants w filename ->
  fs w !! filename = Some blob ->
  (1 <= declarations blob)%nat ->
  map fst (artifacts filename w) =
    map (fun n => format filename (Z.of_nat n)) (seq 0 (declarations blob)) /\
  List.length (artifacts filename w) = declarations blob /\
  NoDup (map fst (artifacts filename w)) /\
  map (fun a => List.filter is_declaration (file_lines (snd a)))
      (artifacts filename w) =
    map (fun d => [d]) (List.filter is_declaration (file_lines blob)).
Proof.
  intros Hg Hb Hk.
  pose proof (flushes_ordinals (file_lines blob)) as Ho.
  change (count_declarations (file_lines blob)) with (declarations blob) in Ho.
  destruct (declarations blob) as [|k] eqn:Ek; [lia |].
  rewrite <- Ek in *.
  assert (Hnames : map fst (artifacts filename w) =
    map (fun n => format filename (Z.of_nat n)) (seq 0 (declarations blob))).
  { rewrite (artifacts_run _ _ _ Hg Hb) by apply flushes_ordinals_NoDup.
    rewrite map_map. cbn [fst].
    rewrite <- (map_map fst (format filename)), Ho. by rewrite map_map. }
  split; [done |]. split; [|split].
  - by rewrite <- (length_map fst), Hnames, length_map, length_seq.
  - rewrite Hnames. apply NoDup_ListNoDup, Finite.Injective_map_NoDup.
    + intros i j E. apply format_inj in E. lia.
    + apply List.seq_NoDup.
  - rewrite (artifacts_run _ _ _ Hg Hb) by apply flushes_ordinals_NoDup.
    rewrite map_map. cbn [snd].
    rewrite <- (flushes_declarations (file_lines blob)) by exact Hk.
    rewrite map_map. apply map_ext_in. intros a Ha.
    rewrite shaped_file_lines; [done |].
    pose proof (flushes_shaped blob) as Hs.
    rewrite List.Forall_forall in Hs. apply Hs, in_map_iff. eauto.
Qed.

Lemma split_file_names_witness :
  map fst (artifacts "patent.data" (open_world three_patents)) =
    map (fun n => format "patent.data" (Z.of_nat n))
        (seq 0 (declarations three_patents)) /\
  List.length (artifacts "patent.data" (open_world three_patents)) =
    declarations three_patents /\
  NoDup (map fst (artifacts "patent.data" (open_world three_patents))) /\
  map (fun a => List.filter is_declaration (file_lines (snd a)))
      (artifacts "patent.data" (open_world three_patents)) =
    map (fun d => [d])
        (List.filter is_declaration (file_lines three_patents)).
Proof.
  apply (split_file_names "patent.data" three_patents).
  - sample_grants.
  - reflexivity.
  - vm_compute. lia.
Defined.

(** C2.  The contents of the artifacts, put together in the order of
    their numbers, are the source, byte for byte; and the lines of the
    artifacts, in this order, are the lines of the source. *)
Theorem split_file_concat (filename blob : string) (w : world) :
  grants w filename ->
  fs w !! filename = Some blob ->
  join (map snd (artifacts filename w)) = blob /\
  concat (map (fun a => file_lines (snd a)) (artifacts filename w)) =
    file_lines blob /\
  exists ords,
    StronglySorted Z.lt ords /\
    map fst (artifacts filename w) = map (format filename) ords.
Proof.
  intros Hg Hb.
  rewrite (artifacts_run _ _ _ Hg Hb) by apply flushes_ordinals_NoDup.
  split; [|split].
  - rewrite map_map. cbn [snd].
    rewrite <- (map_map snd join), <- join_concat, flushes_concat.
    apply join_file_lines.
  - rewrite map_map. cbn [snd].
    rewrite <- (flushes_concat (file_lines blob)) at 2.
    f_equal. rewrite <- (map_id (map snd _)), map_map.
    apply map_ext_in. intros a Ha.
    apply shaped_file_lines.
    pose proof (flushes_shaped blob) as Hs.
    rewrite List.Forall_forall in Hs. apply Hs, in_map_iff. eauto.
  - exists (map fst (flushes (file_lines blob))). split.
    + rewrite flushes_ordinals.
      destruct (count_declarations (file_lines blob)).
      * repeat constructor.
      * apply sorted_ordinals.
    + by rewrite !map_map.
Qed.

Lemma split_file_concat_witness :
  join (map snd (artifacts "patent.data" (open_world three_patents))) =
    three_patents /\
  concat (map (fun a => file_lines (snd a))
              (artifacts "patent.data" (open_world three_patents))) =
    file_lines three_patents /\
  exists ords,
    StronglySorted Z.lt ords /\
    map fst (artifacts "patent.data" (open_world three_patents)) =
      map (format "patent.data") ords.
Proof.
  apply (split_file_concat "patent.data" three_patents).
  - sample_grants.
  - reflexivity.
Defined.

(** C3 does not hold for every source: when the source starts with a
    line that is no declaration line, the first artifact starts with that
    line. *)
Lemma starts_declared_counterexample :
  grants (open_world junk_first) "patent.data" /\
  fs (open_world junk_first) !! "patent.data" = Some junk_first /\
  ~ starts_declared "patent.data" (open_world junk_first).
Proof.
  split; [sample_grants |]. split; [reflexivity |].
  intros H. apply Forall_inv in H. vm_compute in H. discriminate H.
Qed.

(** C3, amended.  When the first line of the source is a declaration
    line, the first line of every artifact is one. *)
Theorem split_file_starts_declared (filename blob : string) (w : world) :
  grants w filename ->
  fs w !! filename = Some blob ->
  is_declaration (readline blob) = true ->
  starts_declared filename w.
Proof.
  intros Hg Hb Hd. unfold starts_declared.
  rewrite (artifacts_run _ _ _ Hg Hb) by apply flushes_ordinals_NoDup.
  destruct (file_lines blob) as [|l input] eqn:El.
  { apply file_lines_nil in El. by subst. }
  assert (Hl : is_declaration l = true)
    by (by rewrite <- (readline_file_lines _ _ _ El)).
  pose proof (flushes_headed l input Hl) as Hh.
  rewrite List.Forall_forall in *. intros a Ha.
  apply in_map_iff in Ha as (c & <- & Hc). cbn [snd].
  rewrite declaration_readline.
  assert (Hs : In (snd c) (map snd (flushes (l :: input))))
    by (apply in_map_iff; eauto).
  specialize (Hh _ Hs). destruct (snd c) as [|d ds]; [done |].
  cbn [join]. apply startswith_app, Hh.
Qed.

Lemma split_file_starts_declared_witness :
  starts_declared "patent.data" (open_world three_patents).
Proof.
  apply (split_file_starts_declared "patent.data" three_patents).
  - sample_grants.
  - reflexivity.
  - reflexivity.
Defined.

(** C4 does not hold for every source: the one artifact of an empty
    source is empty. *)
Lemma none_empty_counterexample :
  grants (open_world EmptyString) "patent.data" /\
  fs (open_world EmptyString) !! "patent.data" = Some EmptyString /\
  ~ none_empty "patent.data" (open_world EmptyString).
Proof.
  split; [sample_grants |]. split; [reflexivity |].
  intros H. apply Forall_inv in H. by apply H.
Qed.

(** C4, amended.  No artifact of a source that is not empty is empty. *)
Theorem split_file_none_empty (filename blob : string) (w : world) :
  grants w filename ->
  fs w !! filename = Some blob ->
  blob <> EmptyString ->
  none_empty filename w.
Proof.
  intros Hg Hb Hne. unfold none_empty.
  rewrite (artifacts_run _ _ _ Hg Hb) by apply flushes_ordinals_NoDup.
  assert (Hin : file_lines blob <> [])
    by (intros E; by apply file_lines_nil in E).
  pose proof (flushes_nonempty _ Hin) as Hc.
  pose proof (file_lines_nonempty blob) as Hl.
  rewrite <- (flushes_concat (file_lines blob)) in Hl.
  apply Forall_concat in Hl.
  rewrite List.Forall_forall in *. intros a Ha.
  apply in_map_iff in Ha as (c & <- & Hin'). cbn [snd].
  assert (Hs : In (snd c) (map snd (flushes (file_lines blob))))
    by (apply in_map_iff; eauto).
  specialize (Hc _ Hs). specialize (Hl _ Hs).
  destruct (snd c) as [|d ds]; [done |].
  apply Forall_inv in Hl. cbn [join]. by destruct d.
Qed.

Lemma split_file_none_empty_witness :
  none_empty "patent.data" (open_world junk_first).
Proof.
  apply (split_file_none_empty "patent.data" junk_first).
  - sample_grants.
  - reflexivity.
  - discriminate.
Defined.

(** C5.  A source without a declaration line is no error: [split_file]
    returns, prints nothing, and creates one artifact, which holds the
    whole source. *)
Theorem split_file_no_declaration_line (filename blob : string) (w : world) :
  grants w filename ->
  fs w !! filename = Some blob ->
  declarations blob = O ->
  fst (split_file filename w) = Return tt /\
  printed (new_events w (snd (split_file filename w))) = [] /\
  exists name,
    artifacts filename w = [(name, blob)] /\
    fs (snd (split_file filename w)) = <[name := blob]> (fs w).
Proof.
  intros Hg Hb Hk.
  destruct (split_file_no_declaration _ _ _ Hg Hb Hk) as [Hrun Harts].
  rewrite Hrun. cbn [fst snd]. split; [done |]. split.
  - by erewrite new_events_app by reflexivity.
  - eauto.
Qed.

Lemma split_file_no_declaration_line_witness :
  fst (split_file "patent.data" (open_world no_patent)) = Return tt /\
  printed (new_events (open_world no_patent)
             (snd (split_file "patent.data" (open_world no_patent)))) =
    [] /\
  exists name,
    artifacts "patent.data" (open_world no_patent) =
      [(name, no_patent)] /\
    fs (snd (split_file "patent.data" (open_world no_patent))) =
      <[name := no_patent]> (fs (open_world no_patent)).
Proof.
  apply (split_file_no_declaration_line "patent.data" no_patent).
  - sample_grants.
  - reflexivity.
  - reflexivity.
Defined.

(** C7.  When the source ends on a declaration line and has two
    declaration lines or more, the last artifact holds that line and
    nothing else. *)
Theorem split_file_last_declaration (filename blob l : string) (w : world) :
  grants w filename ->
  fs w !! filename = Some blob ->
  last (file_lines blob) = Some l ->
  is_declaration l = true ->
  (2 <= declarations blob)%nat ->
  last (artifacts filename w) =
    Some (format filename (Z.of_nat (declarations blob) - 1), l).
Proof.
  intros Hg Hb Hlast Hd Hk.
  rewrite (artifacts_run _ _ _ Hg Hb) by apply flushes_ordinals_NoDup.
  rewrite list_last_map, (flushes_last _ l) by done.
  cbn. by rewrite append_empty_r.
Qed.

Lemma split_file_last_declaration_witness :
  last (artifacts "patent.data" (open_world three_patents)) =
    Some (format "patent.data" (Z.of_nat (declarations three_patents) - 1),
          "<?xml c?>" +:+ lf).
Proof.
  apply (split_file_last_declaration "patent.data" three_patents).
  - sample_grants.
  - reflexivity.
  - reflexivity.
  - reflexivity.
  - vm_compute. lia.
Defined.

(** C8.  On an empty source [split_file] creates one artifact; its name
    is the name of the source followed by [--1], and it is empty. *)
Theorem split_file_empty_source (filename : string) (w : world) :
  grants w filename ->
  fs w !! filename = Some EmptyString ->
  artifacts filename w = [(filename +:+ "--1", EmptyString)] /\
  split_file filename w =
    (Return tt,
     {| perm := perm w;
        fs := <[filename +:+ "--1" := EmptyString]> (fs w);
        trace := trace w ++ [EvOpen filename ModeR true;
                             EvOpen (filename +:+ "--1") ModeW true] |}).
Proof.
  intros Hg Hb.
  destruct (split_file_no_declaration _ _ _ Hg Hb eq_refl) as [Hrun Harts].
  by split.
Qed.

Lemma split_file_empty_source_witness :
  artifacts "patent.data" (open_world EmptyString) =
    [("patent.data--1", EmptyString)] /\
  split_file "patent.data" (open_world EmptyString) =
    (Return tt,
     {| perm := perm (open_world EmptyString);
        fs := <["patent.data--1" := EmptyString]> (fs (open_world EmptyString));
        trace := trace (open_world EmptyString) ++
                 [EvOpen "patent.data" ModeR true;
                  EvOpen "patent.data--1" ModeW true] |}).
Proof.
  apply (split_file_empty_source "patent.data").
  - sample_grants.
  - reflexivity.
Defined.

(** *** Runs with a failure *)

Lemma outcome_ret {A} (a : A) (w : world) : outcome w (ret a w).
Proof.
  exists []. cbn. rewrite app_nil_r. repeat split; try done; constructor.
Qed.

Lemma created_app (evs1 evs2 : list event) :
  created (evs1 ++ evs2) = created evs1 ++ created evs2.
Proof. apply omap_app. Qed.

Lemma outcome_bind {A B} (m : M A) (k : A -> M B) (w : world) :
  outcome w (m w) ->
  (forall a w1, outcome w1 (k a w1)) ->
  outcome w (bind m k w).
Proof.
  intros (evs1 & Ht1 & Hd1 & Hc1 & Hr1) Hk. unfold bind.
  destruct (m w) as [[a | e] w1]; cbn [fst snd] in *.
  - destruct (Hk a w1) as (evs2 & Ht2 & Hd2 & Hc2 & Hr2).
    exists (evs1 ++ evs2). repeat split.
    + by rewrite Ht2, Ht1, app_assoc.
    + set_solver.
    + intros q Hq. rewrite created_app in Hq.
      apply in_app_or in Hq as [Hq | Hq]; [|by apply Hc2].
      apply Hd2, Hc1, Hq.
    + destruct (fst (k a w1)).
      * by apply Forall_app.
      * destruct Hr2 as (pre & p & md & -> & Hpre).
        exists (evs1 ++ pre), p, md.
        split; [by rewrite app_assoc | by apply Forall_app].
  - exists evs1. by repeat split.
Qed.

Lemma outcome_open (path : string) (mode : open_mode) (w : world) :
  outcome w (py_open path mode w).
Proof.
  unfold py_open.
  destruct mode;
    [destruct (perm w path ModeR && _) | destruct (perm w path ModeW)].
  - exists [EvOpen path ModeR true]. repeat split; try done.
    repeat constructor. by exists path, ModeR.
  - exists [EvOpen path ModeR false]. repeat split; try done.
    exists [], path, ModeR. by split; [|constructor].
  - exists [EvOpen path ModeW true]. cbn. repeat split.
    + rewrite dom_insert_L. set_solver.
    + intros q [<- | []]. rewrite dom_insert_L. set_solver.
    + repeat constructor. by exists path, ModeW.
  - exists [EvOpen path ModeW false]. repeat split; try done.
    exists [], path, ModeW. by split; [|constructor].
Qed.

Lemma outcome_write_lines (f : string) (ls : list string) :
  forall w, outcome w (write_lines f ls w).
Proof.
  induction ls as [|l ls IH]; intros w; cbn [write_lines].
  - apply outcome_ret.
  - apply outcome_bind; [|intros _ w1; apply IH].
    exists []. cbn. rewrite app_nil_r, dom_alter_L.
    repeat split; try done; constructor.
Qed.

Lemma outcome_index_last (lines : list string) (line : string) (w : world) :
  outcome w (index_last (lines ++ [line]) w).
Proof. rewrite index_last_snoc. apply outcome_ret. Qed.

Lemma outcome_loop (filename : string) (input : list string) :
  forall n lines w, outcome w (split_loop filename input n lines w).
Proof.
  induction input as [|line input IH]; intros n lines w; cbn [split_loop].
  - apply outcome_ret.
  - destruct (startswith line "<?xml" && (n =? 0)); [apply IH |].
    destruct (startswith line "<?xml"); [|apply IH].
    apply outcome_bind; [apply outcome_open |]. intros f w1.
    apply outcome_bind; [apply outcome_index_last |]. intros l w2.
    apply outcome_bind.
    + destruct (startswith l "<?xml");
        [apply outcome_write_lines | apply outcome_ret].
    + intros _ w3.
      apply outcome_bind; [apply outcome_index_last |]. intros l' w4.
      apply IH.
Qed.

Lemma outcome_body (filename : string) (w : world) :
  outcome w (split_body filename w).
Proof.
  unfold split_body.
  apply outcome_bind; [apply outcome_open |]. intros f w1.
  apply outcome_bind.
  { exists []. cbn. rewrite app_nil_r. repeat split; try done; constructor. }
  intros input w2.
  apply outcome_bind; [apply outcome_loop |]. intros [n lines] w3.
  apply outcome_bind; [apply outcome_open |]. intros f' w4.
  apply outcome_write_lines.
Qed.

(** C6.  When an [open] of a run of [split_file] is denied, that of the
    source or that of an artifact, [split_file] still returns and raises
    nothing.  The denied [open] is the last one made, it is made once,
    and the only thing made after it is to print the message.  The
    artifacts created before it are still there at the end, as are the
    files that were there at the start. *)
Theorem split_file_denied (filename : string) (w : world) :
  (exists p m, In (EvOpen p m false)
                  (new_events w (snd (split_file filename w)))) ->
  fst (split_file filename w) = Return tt /\
  exists pre p m,
    new_events w (snd (split_file filename w)) =
      pre ++ [EvOpen p m false; EvPrint "cant open"] /\
    Forall granted pre /\
    (forall q, In q (created pre) ->
               is_Some (fs (snd (split_file filename w)) !! q)) /\
    (forall q, is_Some (fs w !! q) ->
               is_Some (fs (snd (split_file filename w)) !! q)).
Proof.
  intros (p & md & Hin).
  destruct (outcome_body filename w) as (evs & Ht & Hd & Hc & Hr).
  unfold split_file, try_except in *.
  destruct (split_body filename w) as [[[] | e] w1]; cbn [fst snd] in *.
  - rewrite (new_events_app _ _ _ Ht) in Hin.
    rewrite List.Forall_forall in Hr.
    by destruct (Hr _ Hin) as (? & ? & ?).
  - split; [done |].
    destruct Hr as (pre & p' & md' & -> & Hpre).
    exists pre, p', md'. unfold py_print. cbn [snd log trace fs].
    split; [|split; [done |split]].
    + apply new_events_app. unfold log. cbn [trace].
      by rewrite Ht, <- !app_assoc.
    + intros q Hq. apply elem_of_dom, Hc.
      rewrite created_app. apply in_or_app. by left.
    + intros q Hq. apply elem_of_dom, Hd, elem_of_dom, Hq.
Qed.

Lemma split_file_denied_witness :
  fst (split_file "patent.data"
         (sample_world three_patents "patent.data-1")) = Return tt /\
  exists pre p m,
    new_events (sample_world three_patents "patent.data-1")
      (snd (split_file "patent.data"
              (sample_world three_patents "patent.data-1"))) =
      pre ++ [EvOpen p m false; EvPrint "cant open"] /\
    Forall granted pre /\
    (forall q, In q (created pre) ->
       is_Some (fs (snd (split_file "patent.data"
                  (sample_world three_patents "patent.data-1"))) !! q)) /\
    (forall q, is_Some (fs (sample_world three_patents "patent.data-1") !! q) ->
       is_Some (fs (snd (split_file "patent.data"
                  (sample_world three_patents "patent.data-1"))) !! q)).
Proof.
  apply (split_file_denied "patent.data"
           (sample_world three_patents "patent.data-1")).
  exists "patent.data-1", ModeW. vm_compute. tauto.
Defined.

End split_facts.

(** * The street-name audit *)

Section audit_facts.
Import Audit.

(** The tokens [street_type_re] finds. *)
Example street_type_abbreviated : street_type_of "Baldwin Rd." = Some "Rd.".
Proof. reflexivity. Qed.

Example street_type_after_symbol : street_type_of "Pier #5" = Some "5".
Proof. reflexivity. Qed.

Example street_type_before_newline :
  street_type_of ("Main St" +:+ SplitData.lf) = Some "St".
Proof. reflexivity. Qed.

Example street_type_none : street_type_of "Main St " = None.
Proof. reflexivity. Qed.

Example replace_all : replace "Rd. to Rd." "Rd." "Road" = "Road to Road".
Proof. reflexivity. Qed.

(** C9.  When [street_type_re] finds a token in [name] and the token is
    a key of [mapping], [update_name] returns [name] as it was. *)
Theorem update_name_identity (name street_type : string)
    (mapping : gmap string string) :
  street_type_of name = Some street_type ->
  is_Some (mapping !! street_type) ->
  update_name name mapping = Return name.
Proof.
  unfold street_type_of, update_name.
  destruct (search street_type_re name) as [m |]; [|done].
  intros [= <-] [v ->]. reflexivity.
Qed.

(** For [Baldwin Rd.] the replacement would be [Baldwin Road];
    [update_name] returns [Baldwin Rd.]. *)
Lemma update_name_identity_witness :
  update_name "Baldwin Rd." mapping = Return "Baldwin Rd.".
Proof.
  apply (update_name_identity "Baldwin Rd." "Rd." mapping).
  - reflexivity.
  - vm_compute. eauto.
Defined.

End audit_facts.

(** * The user census *)

Section users_facts.
Import Xml.

Lemma foldl_last {A B} (f : B -> A) (a : A) (l : list B) (x : B) :
  last l = Some x -> foldl (fun _ y => f y) a l = f x.
Proof.
  intros H. apply last_Some in H as [l' ->].
  by rewrite foldl_app.
Qed.

(** On a document, the last element [iterparse] yields is the root. *)
Lemma end_events_last (e : Element) : last (end_events e) = Some ("end", e).
Proof. destruct e. cbn [end_events]. apply last_snoc. Qed.

(** C10.  When [iterparse] yields an element or more, [process_map]
    returns what [get_user] collects from the last one, in both
    [users.py] and [06-openstreetmap-data/users.py].  This need not be
    the union of what [get_user] collects from all of them: on the
    sample document it is not. *)
Theorem process_map_last (iterparse : string -> list (string * Element))
    (filename : string) (ev : string * Element) :
  last (iterparse filename) = Some ev ->
  (Users.process_map iterparse filename = Users.get_user (snd ev) /\
   Users06.process_map iterparse filename = Users06.get_user (snd ev)) /\
  (Users.process_map sample_iterparse filename <>
     ⋃ (map (fun ev => Users.get_user (snd ev))
            (sample_iterparse filename)) /\
   Users06.process_map sample_iterparse filename <>
     ⋃ (map (fun ev => Users06.get_user (snd ev))
            (sample_iterparse filename))).
Proof.
  intros Hlast. split; [split |].
  - unfold Users.process_map.
    by apply (foldl_last (fun ev => Users.get_user (snd ev))).
  - unfold Users06.process_map.
    by apply (foldl_last (fun ev => Users06.get_user (snd ev))).
  - split; intros E;
      apply (f_equal (fun users : gset string => bool_decide ("2" ∈ users)))
        in E;
      vm_compute in E; discriminate E.
Qed.

Lemma process_map_last_witness :
  (Users.process_map sample_iterparse "example.osm" =
     Users.get_user sample_osm /\
   Users06.process_map sample_iterparse "example.osm" =
     Users06.get_user sample_osm) /\
  (Users.process_map sample_iterparse "example.osm" <>
     ⋃ (map (fun ev => Users.get_user (snd ev))
            (sample_iterparse "example.osm")) /\
   Users06.process_map sample_iterparse "example.osm" <>
     ⋃ (map (fun ev => Users06.get_user (snd ev))
            (sample_iterparse "example.osm"))).
Proof.
  apply (process_map_last sample_iterparse "example.osm" ("end", sample_osm)).
  reflexivity.
Defined.

End users_facts.


(** * More on the document splitter *)

Section split_more.
Import Py SplitData SplitPure SplitTest.

(** *** What [split_file] leaves alone *)

Lemma confined_ret {A} (filename : string) (a : A) (w : world) :
  confined filename w (ret a w).
Proof. by split. Qed.

Lemma confined_bind {A B} (filename : string) (m : M A) (k : A -> M B)
    (w : world) :
  confined filename w (m w) ->
  (forall a w1, m w = (Return a, w1) -> confined filename w1 (k a w1)) ->
  confined filename w (bind m k w).
Proof.
  intros [Hp Hf] Hk. unfold bind.
  destruct (m w) as [[a | e] w1]; cbn [snd] in *; [|by split].
  destruct (Hk a w1 eq_refl) as [Hp' Hf']. split.
  - by rewrite Hp'.
  - intros path Hn. by rewrite Hf', Hf.
Qed.

Lemma py_open_handle (path : string) (mode : open_mode) (w w1 : world)
    (f : string) :
  py_open path mode w = (Return f, w1) -> f = path.
Proof.
  unfold py_open.
  destruct mode;
    [destruct (perm w path ModeR && _) | destruct (perm w path ModeW)];
    by intros [= <- _].
Qed.

Lemma confined_open_read (filename path : string) (w : world) :
  confined filename w (py_open path ModeR w).
Proof.
  unfold py_open.
  by destruct (perm w path ModeR && _); split.
Qed.

Lemma confined_open_write (filename : string) (n : Z) (w : world) :
  confined filename w (py_open (format filename n) ModeW w).
Proof.
  unfold py_open.
  destruct (perm w (format filename n) ModeW); split; try done.
  intros path Hn. cbn. apply lookup_insert_ne.
  intros <-. apply Hn. by exists n.
Qed.

Lemma confined_write_lines (filename : string) (n : Z) (ls : list string) :
  forall w, confined filename w (write_lines (format filename n) ls w).
Proof.
  induction ls as [|l ls IH]; intros w; cbn [write_lines].
  - apply confined_ret.
  - apply confined_bind; [|intros _ w1 _; apply IH].
    split; [done |]. intros path Hn. cbn. apply lookup_alter_ne.
    intros <-. apply Hn. by exists n.
Qed.

Lemma confined_loop (filename : string) (input : list string) :
  forall n lines w,
    confined filename w (split_loop filename input n lines w).
Proof.
  induction input as [|line input IH]; intros n lines w; cbn [split_loop].
  - apply confined_ret.
  - destruct (startswith line "<?xml" && (n =? 0)); [apply IH |].
    destruct (startswith line "<?xml"); [|apply IH].
    apply confined_bind; [apply confined_open_write |].
    intros f w1 Hf. apply py_open_handle in Hf as ->.
    apply confined_bind; [rewrite index_last_snoc; apply confined_ret |].
    intros l w2 _.
    apply confined_bind.
    + destruct (startswith l "<?xml");
        [apply confined_write_lines | apply confined_ret].
    + intros _ w3 _.
      apply confined_bind; [rewrite index_last_snoc; apply confined_ret |].
      intros l' w4 _. apply IH.
Qed.

Lemma confined_body (filename : string) (w : world) :
  confined filename w (split_body filename w).
Proof.
  unfold split_body.
  apply confined_bind; [apply confined_open_read |]. intros f w1 _.
  apply confined_bind; [by split |]. intros input w2 _.
  apply confined_bind; [apply confined_loop |]. intros [n lines] w3 _.
  apply confined_bind; [apply confined_open_write |].
  intros f' w4 Hf. apply py_open_handle in Hf as ->.
  apply confined_write_lines.
Qed.

(** X1.  In every run, failed or not, [split_file] changes no permission,
    changes no file but those named [filename-n], and so leaves the
    source as it is. *)
Theorem split_file_confined (filename : string) (w : world) :
  perm (snd (split_file filename w)) = perm w /\
  (forall path, ~ artifact_path filename path ->
     fs (snd (split_file filename w)) !! path = fs w !! path) /\
  fs (snd (split_file filename w)) !! filename = fs w !! filename.
Proof.
  assert (H : confined filename w (split_file filename w)).
  { unfold split_file, try_except.
    pose proof (confined_body filename w) as Hb.
    by destruct (split_body filename w) as [[[] | e] w1]. }
  destruct H as [Hp Hf]. split; [done |]. split; [done |].
  apply Hf. intros [n Hn]. symmetry in Hn. by apply format_not_source in Hn.
Qed.

(** *** Running [split_file] again *)

Lemma flush_all_twice (filename : string) (fl : list (Z * list string))
    (w w' : world) :
  NoDup (map fst fl) ->
  fs w' = fs (flush_all filename fl w) ->
  fs (flush_all filename fl w') = fs (flush_all filename fl w).
Proof.
  intros Hnd Hw. rewrite <- Hw. apply map_eq. intros path.
  destruct (decide (Exists (fun a => format filename (fst a) = path) fl))
    as [Hex | Hno].
  - apply Exists_exists in Hex as (a & Ha & <-).
    apply list_elem_of_In in Ha.
    by rewrite Hw, !flush_all_lookup.
  - apply flush_all_lookup_other. intros a Ha E.
    apply Hno, Exists_exists. exists a. by rewrite <- list_elem_of_In in Ha.
Qed.

(** X2.  A second run of [split_file] on the outcome of a run without
    failure changes no file, and its artifacts are those of the first
    run. *)
Theorem split_file_again (filename blob : string) (w : world) :
  grants w filename ->
  fs w !! filename = Some blob ->
  fs (snd (split_file filename (snd (split_file filename w)))) =
    fs (snd (split_file filename w)) /\
  artifacts filename (snd (split_file filename w)) = artifacts filename w.
Proof.
  intros Hg Hb.
  pose proof (split_file_source_kept _ _ _ Hg Hb) as Hb1.
  assert (Hg1 : grants (snd (split_file filename w)) filename).
  { rewrite (split_file_run _ _ _ Hg Hb). cbn [snd].
    destruct Hg as [Hr Hw]. split.
    - by rewrite flush_all_perm.
    - intros n. rewrite flush_all_perm. apply Hw. }
  split.
  - rewrite (split_file_run _ _ _ Hg1 Hb1). cbn [snd].
    rewrite (flush_all_twice filename _ (log (EvOpen filename ModeR true) w)).
    + by rewrite (split_file_run _ _ _ Hg Hb).
    + apply flushes_ordinals_NoDup.
    + cbn [log fs]. by rewrite (split_file_run _ _ _ Hg Hb).
  - by rewrite (artifacts_run _ _ _ Hg1 Hb1), (artifacts_run _ _ _ Hg Hb)
      by apply flushes_ordinals_NoDup.
Qed.

Lemma split_file_again_witness :
  fs (snd (split_file "patent.data"
             (snd (split_file "patent.data" (open_world three_patents))))) =
    fs (snd (split_file "patent.data" (open_world three_patents))) /\
  artifacts "patent.data"
    (snd (split_file "patent.data" (open_world three_patents))) =
    artifacts "patent.data" (open_world three_patents).
Proof.
  apply (split_file_again "patent.data" three_patents).
  - split; [reflexivity | intros ?; reflexivity].
  - reflexivity.
Defined.

(** *** [test] *)

Lemma test_file_run (n : Z) (w : world) :
  exists evs,
    test_file n w =
      (Return tt, {| perm := perm w; fs := fs w; trace := trace w ++ evs |}) /\
    printed evs = report w n.
Proof.
  unfold test_file, report, try_except, bind, py_open, py_readline,
    py_close, py_print, ret, log.
  destruct (perm w (format PATENTS n) ModeR && _); cbn [fst snd perm fs trace].
  - change (contents {| perm := perm w; fs := fs w; trace := _ |} ?f)
      with (contents w f).
    destruct (startswith (readline (contents w (format PATENTS n))) "<?xml");
      cbn [negb perm fs trace].
    + by eexists.
    + eexists. split; [by rewrite <- app_assoc | done].
  - eexists. split; [by rewrite <- app_assoc | done].
Qed.

Lemma for_each_test_file (ns : list Z) :
  forall w, exists evs,
    for_each ns test_file w =
      (Return tt, {| perm := perm w; fs := fs w; trace := trace w ++ evs |}) /\
    printed evs = flat_map (report w) ns.
Proof.
  induction ns as [|n ns IH]; intros w; cbn [for_each flat_map].
  - exists []. rewrite app_nil_r. by destruct w.
  - destruct (test_file_run n w) as (evs1 & H1 & P1).
    unfold bind. rewrite H1.
    destruct (IH {| perm := perm w; fs := fs w; trace := trace w ++ evs1 |})
      as (evs2 & H2 & P2).
    rewrite H2. exists (evs1 ++ evs2). cbn [perm fs trace]. split.
    + by rewrite app_assoc.
    + unfold printed in *. by rewrite omap_app, P1, P2.
Qed.

Lemma printed_flushes (filename : string) (fl : list (Z * list string)) :
  printed (map (fun a => EvOpen (format filename (fst a)) ModeW true) fl) = [].
Proof. by induction fl. Qed.

(** What [test] prints after a [split_file] without failure. *)
Lemma test_prints (blob : string) (w : world) :
  grants w PATENTS ->
  fs w !! PATENTS = Some blob ->
  fst (test w) = Return tt /\
  printed (new_events w (snd (test w))) =
    flat_map (report (snd (split_file PATENTS w))) [0; 1; 2; 3].
Proof.
  intros Hg Hb. unfold test, bind.
  rewrite (split_file_run _ _ _ Hg Hb). cbn [snd].
  set (w1 := flush_all _ _ _).
  destruct (for_each_test_file [0; 1; 2; 3] w1) as (evs & H & P).
  rewrite H. cbn [fst snd]. split; [done |].
  erewrite new_events_app; cycle 1.
  { cbn [trace]. unfold w1. rewrite flush_all_trace. cbn [log trace].
    rewrite <- !app_assoc. reflexivity. }
  unfold printed in *. rewrite !omap_app.
  fold (printed (map (fun a => EvOpen (format PATENTS (fst a)) ModeW true)
                     (flushes (file_lines blob)))).
  by rewrite printed_flushes, P.
Qed.

Lemma flushes_at (input : list string) (n : nat) :
  (n < count_declarations input)%nat ->
  exists a, In a (flushes input) /\ fst a = Z.of_nat n.
Proof.
  intros Hn.
  assert (H : In (Z.of_nat n) (map fst (flushes input))).
  { rewrite flushes_ordinals.
    destruct (count_declarations input) eqn:E; [lia |]. rewrite <- E.
    apply in_map, in_seq. lia. }
  apply in_map_iff in H as (a & Ha & Hin). eauto.
Qed.

Lemma flushes_not_at (input : list string) (n : Z) (a : Z * list string) :
  Z.of_nat (count_declarations input) <= n -> 0 <= n ->
  In a (flushes input) -> fst a <> n.
Proof.
  intros Hk Hn Ha E.
  assert (H : In n (map fst (flushes input))).
  { apply in_map_iff. eauto. }
  rewrite flushes_ordinals in H.
  destruct (count_declarations input) eqn:Ek.
  - destruct H as [H | []]. lia.
  - apply in_map_iff in H as (i & <- & Hi). apply in_seq in Hi. lia.
Qed.

(** The first flush starts with the first line of the source. *)
Lemma loop_pure_first (input : list string) :
  forall n lines l ls,
    lines = l :: ls ->
    exists ls' rest,
      map snd (fst (loop_pure input n lines)) ++
        [snd (snd (loop_pure input n lines))] = (l :: ls') :: rest.
Proof.
  induction input as [|line input IH]; intros n lines l ls ->;
    cbn [loop_pure].
  - by exists ls, [].
  - destruct (is_declaration line); [destruct (n =? 0) |];
      try by apply (IH _ _ l (ls ++ [line])).
    cbn [fst snd map app]. eauto.
Qed.

Lemma flushes_first (l : string) (input : list string) :
  exists o ls rest, flushes (l :: input) = (o, l :: ls) :: rest.
Proof.
  unfold flushes.
  assert (H : exists ls' rest,
    map snd (fst (loop_pure (l :: input) 0 [])) ++
      [snd (snd (loop_pure (l :: input) 0 []))] = (l :: ls') :: rest).
  { cbn [loop_pure Z.eqb].
    destruct (is_declaration l); by apply (loop_pure_first _ _ _ l []). }
  destruct H as (ls' & rest & H).
  destruct (fst (loop_pure (l :: input) 0 [])) as [|[o c] out].
  - cbn in *. injection H as -> <-. eauto.
  - cbn in *. injection H as -> _. eauto.
Qed.

Lemma report_at (blob : string) (w : world) (a : Z * list string) :
  grants w PATENTS ->
  fs w !! PATENTS = Some blob ->
  perm w (format PATENTS (fst a)) ModeR = true ->
  In a (flushes (file_lines blob)) ->
  report (snd (split_file PATENTS w)) (fst a) =
    if startswith (readline (join (snd a))) "<?xml"
    then []
    else [wrong_boundary (format PATENTS (fst a))].
Proof.
  intros Hg Hb Hp Ha. rewrite (split_file_run _ _ _ Hg Hb). cbn [snd].
  unfold report, contents.
  rewrite flush_all_perm. cbn [log perm]. rewrite Hp.
  rewrite flush_all_lookup by (apply flushes_ordinals_NoDup || done).
  by rewrite bool_decide_eq_true_2 by eauto.
Qed.

(** X3.  When the source starts with a declaration line and has four
    declaration lines or more, [test] splits it and prints nothing. *)
Theorem test_silent (blob : string) (w : world) :
  grants w PATENTS ->
  (forall n, perm w (format PATENTS n) ModeR = true) ->
  fs w !! PATENTS = Some blob ->
  is_declaration (readline blob) = true ->
  (4 <= declarations blob)%nat ->
  fst (test w) = Return tt /\
  printed (new_events w (snd (test w))) = [].
Proof.
  intros Hg Hr Hb Hd Hk.
  destruct (test_prints _ _ Hg Hb) as [Ht Hp]. split; [done |].
  rewrite Hp.
  assert (H : forall n, 0 <= n < 4 ->
            report (snd (split_file PATENTS w)) n = []).
  { intros n Hn.
    destruct (flushes_at (file_lines blob) (Z.to_nat n)) as (a & Ha & Hfa);
      [unfold declarations in Hk; lia |].
    rewrite Z2Nat.id in Hfa by lia. subst n.
    rewrite (report_at blob) by done.
    destruct (file_lines blob) as [|l input] eqn:El.
    { apply file_lines_nil in El. by subst. }
    assert (Hl : is_declaration l = true)
      by (by rewrite <- (readline_file_lines _ _ _ El)).
    pose proof (flushes_headed l input Hl) as Hh.
    rewrite List.Forall_forall in Hh.
    assert (Hs : In (snd a) (map snd (flushes (l :: input))))
      by (apply in_map_iff; eauto).
    specialize (Hh _ Hs). rewrite declaration_readline.
    destruct (snd a) as [|d ds]; [done |].
    cbn [join]. by rewrite startswith_app. }
  cbn [flat_map].
  by rewrite (H 0), (H 1), (H 2), (H 3) by lia.
Qed.

Lemma test_silent_witness :
  fst (test (open_world four_patents)) = Return tt /\
  printed (new_events (open_world four_patents)
             (snd (test (open_world four_patents)))) = [].
Proof.
  apply (test_silent four_patents).
  - split; [reflexivity | intros ?; reflexivity].
  - intros ?. reflexivity.
  - reflexivity.
  - reflexivity.
  - vm_compute. lia.
Defined.

(** X4.  When the source has a declaration line but starts with another
    line, [test] reports [patent.data-0] as split in the wrong place. *)
Theorem test_wrong_boundary (blob : string) (w : world) :
  grants w PATENTS ->
  perm w (format PATENTS 0) ModeR = true ->
  fs w !! PATENTS = Some blob ->
  is_declaration (readline blob) = false ->
  (1 <= declarations blob)%nat ->
  In (wrong_boundary (format PATENTS 0))
     (printed (new_events w (snd (test w)))).
Proof.
  intros Hg Hr Hb Hd Hk.
  destruct (test_prints _ _ Hg Hb) as [_ Hp]. rewrite Hp.
  apply in_flat_map. exists 0. split; [by left |].
  destruct (file_lines blob) as [|l input] eqn:El.
  { unfold declarations in Hk. rewrite El in Hk. cbn in Hk. lia. }
  destruct (flushes_first l input) as (o & ls & rest & Hf).
  assert (Ha : In (o, l :: ls) (flushes (file_lines blob)))
    by (rewrite El, Hf; by left).
  assert (Ho : o = 0).
  { pose proof (flushes_ordinals (l :: input)) as H. rewrite Hf in H.
    unfold declarations in Hk. rewrite El in Hk.
    destruct (count_declarations (l :: input)); [lia |].
    by injection H. }
  subst o.
  change 0 with (fst (0, l :: ls)) at 2.
  rewrite (report_at blob w (0, l :: ls)) by done. cbn [fst snd].
  assert (Hs : file_shaped (l :: ls)).
  { pose proof (flushes_shaped blob) as H.
    rewrite List.Forall_forall in H. apply H, in_map_iff.
    exists (0, l :: ls). by split. }
  rewrite (readline_file_lines _ l ls) by (by apply shaped_file_lines).
  rewrite (readline_file_lines _ _ _ El) in Hd.
  unfold is_declaration in Hd. rewrite Hd. by left.
Qed.

Lemma test_wrong_boundary_witness :
  In (wrong_boundary (format PATENTS 0))
     (printed (new_events (open_world junk_first)
                 (snd (test (open_world junk_first))))).
Proof.
  apply (test_wrong_boundary junk_first).
  - split; [reflexivity | intros ?; reflexivity].
  - reflexivity.
  - reflexivity.
  - reflexivity.
  - vm_compute. lia.
Defined.

(** X5.  [test] looks for [patent.data-0] to [patent.data-3]: for a
    source with fewer declaration lines than [n + 1], where [n] is one of
    0 to 3, it reports [patent.data-n] as not found, unless that file was
    there before. *)
Theorem test_not_found (blob : string) (w : world) (n : Z) :
  grants w PATENTS ->
  fs w !! PATENTS = Some blob ->
  0 <= n <= 3 ->
  Z.of_nat (declarations blob) <= n ->
  fs w !! format PATENTS n = None ->
  In (not_found (format PATENTS n))
     (printed (new_events w (snd (test w)))).
Proof.
  intros Hg Hb Hn Hk Hnone.
  destruct (test_prints _ _ Hg Hb) as [_ Hp]. rewrite Hp.
  apply in_flat_map. exists n. split.
  { cbn. lia. }
  rewrite (split_file_run _ _ _ Hg Hb). cbn [snd].
  unfold report.
  rewrite flush_all_lookup_other.
  - cbn [log fs]. rewrite Hnone.
    rewrite bool_decide_eq_false_2 by (by intros [? ?]).
    rewrite andb_false_r. by left.
  - intros a Ha E. apply format_inj in E.
    exact (flushes_not_at (file_lines blob) n a Hk (proj1 Hn) Ha E).
Qed.

Lemma test_not_found_witness :
  In (not_found (format PATENTS 3))
     (printed (new_events (open_world three_patents)
                 (snd (test (open_world three_patents))))).
Proof.
  apply (test_not_found three_patents).
  - split; [reflexivity | intros ?; reflexivity].
  - reflexivity.
  - lia.
  - vm_compute. discriminate.
  - reflexivity.
Defined.

End split_more.


(** * More on the user census, and the tag census *)

Section census_more.
Import Xml.

Lemma foldl_add_uid (l : list Element) :
  forall (init : gset string) (uid : string),
    uid ∈ foldl (fun users e =>
                   match attrib e !! "uid" with
                   | Some u => users ∪ {[ u ]}
                   | None => users
                   end) init l <->
    uid ∈ init \/ exists c, In c l /\ attrib c !! "uid" = Some uid.
Proof.
  induction l as [|e l IH]; intros init uid; cbn [foldl].
  - split; [by left | intros [H | (c & [] & _)]; done].
  - rewrite IH. destruct (attrib e !! "uid") as [u |] eqn:E.
    + rewrite elem_of_union, elem_of_singleton. split.
      * intros [[H | ->] | (c & Hc & Hu)]; eauto.
        -- right. exists e. split; [by left | done].
        -- right. exists c. split; [by right | done].
      * intros [H | (c & [<- | Hc] & Hu)]; eauto.
        left. right. congruence.
    + split.
      * intros [H | (c & Hc & Hu)]; eauto.
        right. exists c. split; [by right | done].
      * intros [H | (c & [<- | Hc] & Hu)]; eauto. congruence.
Qed.

(** X6.  [get_user] of [users.py] collects the [uid]s of the children of
    the element, and nothing else: not the [uid] of the element itself,
    and none from further down. *)
Theorem get_user_children (element : Element) (uid : string) :
  uid ∈ Users.get_user element <->
  exists c, In c (children element) /\ attrib c !! "uid" = Some uid.
Proof.
  unfold Users.get_user. rewrite foldl_add_uid. split; [|by right].
  intros [H | H]; [by apply elem_of_empty in H | done].
Qed.

(** X7.  [get_user] of [06-openstreetmap-data/users.py] collects the
    [uid] of the element and those of its children: what [get_user] of
    [users.py] collects, and the [uid] of the element when it has one. *)
Theorem get_user06_own_and_children (element : Element) (uid : string) :
  (uid ∈ Users06.get_user element <->
   attrib element !! "uid" = Some uid \/
   exists c, In c (children element) /\ attrib c !! "uid" = Some uid) /\
  Users.get_user element ⊆ Users06.get_user element.
Proof.
  assert (H : uid ∈ Users06.get_user element <->
              attrib element !! "uid" = Some uid \/
              exists c, In c (children element) /\
                        attrib c !! "uid" = Some uid).
  { unfold Users06.get_user. rewrite foldl_add_uid.
    destruct (attrib element !! "uid") as [u |].
    - rewrite elem_of_union, elem_of_singleton, elem_of_empty. split.
      + intros [[[] | ->] | H]; [by left | by right].
      + intros [[= ->] | H]; [left; by right | by right].
    - rewrite elem_of_empty. split.
      + intros [[] | H]. by right.
      + intros [[=] | H]. by right. }
  split; [done |].
  intros x Hx. unfold Users.get_user in Hx.
  apply foldl_add_uid in Hx as [Hx | Hx]; [by apply elem_of_empty in Hx |].
  unfold Users06.get_user. apply foldl_add_uid. by right.
Qed.

(** X8.  On a document, where the last element [iterparse] yields is the
    root, [process_map] returns the [uid]s of the children of the root
    ([users.py]), with the [uid] of the root when it has one
    ([06-openstreetmap-data/users.py]); a [uid] that only elements further
    down have is not in it. *)
Theorem process_map_document (iterparse : string -> list (string * Element))
    (filename : string) (root : Element) (uid : string) :
  iterparse filename = end_events root ->
  (uid ∈ Users.process_map iterparse filename <->
   exists c, In c (children root) /\ attrib c !! "uid" = Some uid) /\
  (uid ∈ Users06.process_map iterparse filename <->
   attrib root !! "uid" = Some uid \/
   exists c, In c (children root) /\ attrib c !! "uid" = Some uid).
Proof.
  intros Hdoc. unfold Users.process_map, Users06.process_map.
  rewrite Hdoc.
  rewrite (foldl_last (fun ev => Users.get_user (snd ev)) ∅ _ _
             (end_events_last root)).
  rewrite (foldl_last (fun ev => Users06.get_user (snd ev)) ∅ _ _
             (end_events_last root)).
  cbn [snd]. unfold Users.get_user, Users06.get_user.
  rewrite !foldl_add_uid. split.
  - split; [|by right]. intros [H | H]; [by apply elem_of_empty in H | done].
  - destruct (attrib root !! "uid") as [u |].
    + rewrite elem_of_union, elem_of_singleton, elem_of_empty. split.
      * intros [[[] | ->] | H]; [by left | by right].
      * intros [[= ->] | H]; [left; by right | by right].
    + rewrite elem_of_empty. split.
      * intros [[] | H]. by right.
      * intros [[=] | H]. by right.
Qed.

Lemma process_map_document_witness :
  ("2" ∈ Users.process_map sample_iterparse "example.osm" <->
   exists c, In c (children sample_osm) /\ attrib c !! "uid" = Some "2") /\
  ("2" ∈ Users06.process_map sample_iterparse "example.osm" <->
   attrib sample_osm !! "uid" = Some "2" \/
   exists c, In c (children sample_osm) /\ attrib c !! "uid" = Some "2").
Proof.
  apply (process_map_document sample_iterparse "example.osm" sample_osm "2").
  reflexivity.
Defined.

(** *** [count_tags] *)

Import MapParser.

Lemma count_step_lookup (tags : gmap string Z) (ev : string * Element)
    (t : string) :
  (match tags !! tag (snd ev) with
   | Some c => <[tag (snd ev) := c + 1]> tags
   | None => <[tag (snd ev) := 1]> tags
   end) !! t =
  if String.eqb (tag (snd ev)) t
  then Some (default 0 (tags !! t) + 1)
  else tags !! t.
Proof.
  destruct (String.eqb_spec (tag (snd ev)) t) as [<- | Hne].
  - destruct (tags !! tag (snd ev)); by rewrite lookup_insert_eq.
  - destruct (tags !! tag (snd ev)); by rewrite lookup_insert_ne.
Qed.

Lemma count_fold_lookup (evs : list (string * Element)) (t : string) :
  forall tags : gmap string Z,
    foldl (fun tags ev =>
             let elem := snd ev in
             match tags !! tag elem with
             | Some c => <[tag elem := c + 1]> tags
             | None => <[tag elem := 1]> tags
             end) tags evs !! t =
    match occurrences t evs with
    | O => tags !! t
    | S _ => Some (default 0 (tags !! t) + Z.of_nat (occurrences t evs))
    end.
Proof.
  unfold occurrences.
  induction evs as [|ev evs IH]; intros tags; cbn [foldl List.filter];
    [done |].
  rewrite IH. cbv zeta. rewrite count_step_lookup.
  destruct (String.eqb (tag (snd ev)) t); [|done].
  cbn [List.length default].
  destruct (List.length _) as [|k]; [done |].
  f_equal. unfold id. lia.
Qed.

(** X9.  For every tag, [count_tags] holds the number of elements yielded
    that have the tag; a tag no element has is not a key. *)
Theorem count_tags_occurrences
    (iterparse : string -> list (string * Element)) (filename t : string) :
  count_tags iterparse filename !! t =
  match occurrences t (iterparse filename) with
  | O => None
  | S _ => Some (Z.of_nat (occurrences t (iterparse filename)))
  end.
Proof.
  unfold count_tags. rewrite count_fold_lookup.
  destruct (occurrences t (iterparse filename)); [done |].
  by rewrite lookup_empty.
Qed.

Lemma total_insert (tags : gmap string Z) (k : string) (c : Z) :
  total (<[k := c]> tags) = total tags - default 0 (tags !! k) + c.
Proof.
  unfold total.
  assert (Hcomm : forall (m : gmap string Z) (j1 j2 : string) (z1 z2 y : Z),
            j1 <> j2 -> m !! j1 = Some z1 -> m !! j2 = Some z2 ->
            z1 + (z2 + y) = z2 + (z1 + y)) by (intros; lia).
  destruct (tags !! k) as [c0 |] eqn:E; cbn [default].
  - rewrite <- insert_delete_eq.
    rewrite map_fold_insert_L;
      [|by apply Hcomm | apply lookup_delete_eq].
    rewrite (map_fold_delete_L _ _ k c0 tags);
      [cbv beta; unfold id; lia | by apply Hcomm | done].
  - rewrite map_fold_insert_L; [cbv beta; lia | by apply Hcomm | done].
Qed.

(** X10.  The counts of [count_tags] add up to the number of elements
    yielded: each element is counted once. *)
Theorem count_tags_total
    (iterparse : string -> list (string * Element)) (filename : string) :
  total (count_tags iterparse filename) =
  Z.of_nat (List.length (iterparse filename)).
Proof.
  unfold count_tags.
  enough (H : forall (evs : list (string * Element)) (tags : gmap string Z),
    total (foldl (fun tags ev =>
                    let elem := snd ev in
                    match tags !! tag elem with
                    | Some c => <[tag elem := c + 1]> tags
                    | None => <[tag elem := 1]> tags
                    end) tags evs) =
    total tags + Z.of_nat (List.length evs)).
  { rewrite H. unfold total at 1. by rewrite map_fold_empty. }
  induction evs as [|ev evs IH]; intros tags; cbn [foldl List.length].
  - lia.
  - rewrite IH. cbv zeta.
    destruct (tags !! tag (snd ev)) as [c |] eqn:E;
      rewrite total_insert, E; cbn [default]; unfold id; lia.
Qed.

Lemma occurrences_app (t : string) (evs1 evs2 : list (string * Element)) :
  occurrences t (evs1 ++ evs2) =
  (occurrences t evs1 + occurrences t evs2)%nat.
Proof. unfold occurrences. by rewrite List.filter_app, length_app. Qed.

Lemma occurrences_end_events (t : string) :
  forall e, occurrences t (end_events e) = in_document t e.
Proof.
  fix IH 1. intros [tg a cs]. cbn [end_events in_document].
  rewrite occurrences_app.
  replace (occurrences t [("end", Elem tg a cs)])
    with (if String.eqb tg t then 1%nat else 0%nat)
    by (unfold occurrences; cbn; by destruct (String.eqb tg t)).
  rewrite Nat.add_comm. f_equal.
  induction cs as [|c cs IHcs]; [done |].
  by rewrite occurrences_app, IH, IHcs.
Qed.

(** X11.  On a document [count_tags] counts the elements at every depth:
    for every tag it holds the number of elements of the document that
    have the tag. *)
Theorem count_tags_document (iterparse : string -> list (string * Element))
    (filename t : string) (root : Element) :
  iterparse filename = end_events root ->
  count_tags iterparse filename !! t =
  match in_document t root with
  | O => None
  | S _ => Some (Z.of_nat (in_document t root))
  end.
Proof.
  intros Hdoc. unfold count_tags. rewrite count_fold_lookup, Hdoc.
  rewrite occurrences_end_events.
  destruct (in_document t root); [done |]. by rewrite lookup_empty.
Qed.

Lemma count_tags_document_witness :
  count_tags sample_iterparse "example.osm" !! "nd" =
  match in_document "nd" sample_osm with
  | O => None
  | S _ => Some (Z.of_nat (in_document "nd" sample_osm))
  end.
Proof.
  apply (count_tags_document sample_iterparse "example.osm" "nd" sample_osm).
  reflexivity.
Defined.

End census_more.


(** * More on the street-name audit *)

Section audit_more.
Import Xml Audit AuditMap.

Lemma filed_step (street_types : gmap string (gset string))
    (street_name k n : string) :
  filed (audit_street_type street_types street_name) k n <->
  filed street_types k n \/
  (n = street_name /\ street_type_of street_name = Some k /\ k ∉ expected).
Proof.
  unfold audit_street_type, street_type_of, filed.
  destruct (search street_type_re street_name) as [m |];
    cbn [fmap option_fmap option_map];
    [|split; [by left | by intros [H | (_ & [=] & _)]]].
  set (st := group street_name m).
  destruct (bool_decide_reflect (st ∈ expected)) as [Hin | Hnin].
  - split; [by left |]. intros [H | (_ & [= <-] & Hk)]; done.
  - destruct (decide (st = k)) as [<- | Hne].
    + rewrite lookup_insert_eq. split.
      * intros (names & [= <-] & Hn).
        apply elem_of_union in Hn as [Hn | Hn].
        -- left. destruct (street_types !! st) as [ns |]; [eauto |].
           by apply elem_of_empty in Hn.
        -- right. apply elem_of_singleton in Hn. by subst.
      * intros [(names & Hs & Hn) | (-> & _ & _)]; eexists; split; eauto.
        -- rewrite Hs. apply elem_of_union. by left.
        -- apply elem_of_union. right. by apply elem_of_singleton.
    + rewrite lookup_insert_ne by done. split; [by left |].
      intros [H | (_ & [= E] & _)]; done.
Qed.

(** X12.  [audit_street_type] files the name under the token the regular
    expression finds in it, unless the token is an expected street type;
    it keeps what was filed before and files nothing else.  When the name
    has no token or an expected one, the [dict] stays as it is. *)
Theorem audit_street_type_effect (street_types : gmap string (gset string))
    (street_name : string) :
  (forall k n,
     filed (audit_street_type street_types street_name) k n <->
     filed street_types k n \/
     (n = street_name /\ street_type_of street_name = Some k /\
      k ∉ expected)) /\
  ((forall k, street_type_of street_name = Some k -> k ∈ expected) ->
   audit_street_type street_types street_name = street_types).
Proof.
  split; [intros k n; apply filed_step |].
  unfold audit_street_type, street_type_of.
  destruct (search street_type_re street_name) as [m |]; [|done].
  intros H. by rewrite bool_decide_eq_true_2 by (by apply H).
Qed.

Lemma audit_tags_returns (tags : list Element) :
  forall street_types,
    (forall t, In t tags ->
       is_Some (attrib t !! "k") /\
       (attrib t !! "k" = Some "addr:street" -> is_Some (attrib t !! "v"))) ->
    exists street_types',
      audit_tags tags street_types = Return street_types' /\
      forall k n,
        filed street_types' k n <->
        filed street_types k n \/
        ((exists t, In t tags /\ street_name_of t n) /\
         street_type_of n = Some k /\ k ∉ expected).
Proof.
  induction tags as [|tg tags IH]; intros street_types Hwf;
    cbn [audit_tags].
  - eexists. split; [done |]. intros k n. split; [by left |].
    by intros [H | ((t & [] & _) & _)].
  - destruct (Hwf tg (or_introl eq_refl)) as [[kv Hk] Hv].
    unfold is_street_name. rewrite Hk.
    destruct (String.eqb_spec kv "addr:street") as [-> | Hne].
    + destruct (Hv Hk) as [v Hvv]. rewrite Hvv.
      destruct (IH (audit_street_type street_types v)) as (m' & Hr & Hf).
      { intros t Ht. apply Hwf. by right. }
      exists m'. split; [done |]. intros k n.
      rewrite Hf, filed_step. unfold street_name_of. split.
      * intros [[H | (-> & Hs & He)] | ((t & Ht & Hn) & Hs & He)];
          [by left | right | right]; (split; [|done]).
        -- exists tg. split; [by left | done].
        -- exists t. split; [by right | done].
      * intros [H | ((t & [<- | Ht] & Hkt & Hvt) & Hs & He)];
          [left; by left | left; right | right].
        -- assert (n = v) as -> by congruence. done.
        -- split; [|done]. by exists t.
    + destruct (IH street_types) as (m' & Hr & Hf).
      { intros t Ht. apply Hwf. by right. }
      exists m'. split; [done |]. intros k n.
      rewrite Hf. unfold street_name_of. split.
      * intros [H | ((t & Ht & Hn) & Hs & He)]; [by left | right].
        split; [|done]. exists t. split; [by right | done].
      * intros [H | ((t & [<- | Ht] & Hkt & Hvt) & Hs & He)];
          [by left | congruence | right].
        split; [|done]. by exists t.
Qed.

Lemma audit_events_returns (evs : list (string * Element)) :
  forall street_types,
    well_tagged evs ->
    exists street_types',
      audit_events evs street_types = Return street_types' /\
      forall k n,
        filed street_types' k n <->
        filed street_types k n \/
        ((exists t, audited evs t /\ street_name_of t n) /\
         street_type_of n = Some k /\ k ∉ expected).
Proof.
  induction evs as [|[ev elem] evs IH]; intros street_types Hwf;
    cbn [audit_events].
  - eexists. split; [done |]. intros k n. split; [by left |].
    by intros [H | ((t & (? & ? & [] & _) & _) & _)].
  - assert (Hwf' : well_tagged evs).
    { intros t (ev' & elem' & Hin & He & Ht). apply Hwf.
      exists ev', elem'. split; [by right | done]. }
    destruct (String.eqb (Xml.tag elem) "node" ||
              String.eqb (Xml.tag elem) "way") eqn:Etag.
    + assert (He : Xml.tag elem = "node" \/ Xml.tag elem = "way").
      { apply orb_true_iff in Etag as [E | E]; apply String.eqb_eq in E; auto. }
      destruct (audit_tags_returns (iter "tag" elem) street_types)
        as (m1 & Hr1 & Hf1).
      { intros t Ht. apply Hwf. exists ev, elem. split; [by left | done]. }
      rewrite Hr1.
      destruct (IH m1 Hwf') as (m' & Hr & Hf).
      exists m'. split; [done |]. intros k n. rewrite Hf, Hf1. split.
      * intros [[H | ((t & Ht & Hn) & Hs & Hx)] | ((t & Ht & Hn) & Hs & Hx)];
          [by left | right | right]; (split; [|done]); exists t;
          (split; [|done]).
        -- exists ev, elem. split; [by left | done].
        -- destruct Ht as (ev' & elem' & Hin & He' & Ht).
           exists ev', elem'. split; [by right | done].
      * intros [H | ((t & (ev' & elem' & [[= <- <-] | Hin] & He' & Ht) & Hn)
                     & Hs & Hx)];
          [left; by left | left; right | right]; (split; [|done]); exists t;
          (split; [|done]); [done |].
        by exists ev', elem'.
    + destruct (IH street_types Hwf') as (m' & Hr & Hf).
      exists m'. split; [done |]. intros k n. rewrite Hf. split.
      * intros [H | ((t & Ht & Hn) & Hs & Hx)]; [by left | right].
        split; [|done]. exists t. split; [|done].
        destruct Ht as (ev' & elem' & Hin & He' & Ht).
        exists ev', elem'. split; [by right | done].
      * intros [H | ((t & (ev' & elem' & [[= <- <-] | Hin] & He' & Ht) & Hn)
                     & Hs & Hx)]; [by left | | right].
        -- apply orb_false_iff in Etag as [E1 E2].
           apply String.eqb_neq in E1, E2. by destruct He'.
        -- split; [|done]. exists t. split; [|done]. by exists ev', elem'.
Qed.

(** X13.  When the file can be opened and every [tag] element the audit
    looks at has a [k], and a [v] when [k] is [addr:street], [audit]
    returns; a name is filed under a street type exactly when it is the
    [v] of such a street-name element below a [node] or a [way], the
    street type is the token the regular expression finds in it, and
    this token is not an expected street type. *)
Theorem audit_filed (can_open : string -> bool)
    (iterparse : string -> list (string * Element)) (osmfile : string) :
  can_open osmfile = true ->
  well_tagged (iterparse osmfile) ->
  exists street_types,
    audit can_open iterparse osmfile = Return street_types /\
    forall k n,
      filed street_types k n <->
      (exists t, audited (iterparse osmfile) t /\ street_name_of t n) /\
      street_type_of n = Some k /\ k ∉ expected.
Proof.
  intros Ho Hwf. unfold audit. rewrite Ho.
  destruct (audit_events_returns (iterparse osmfile) ∅ Hwf) as (m & Hr & Hf).
  exists m. split; [done |]. intros k n. rewrite Hf. split; [|by right].
  intros [(names & Hl & _) | H]; [|done].
  by rewrite lookup_empty in Hl.
Qed.

Lemma audit_street_type_effect_witness :
  audit_street_type ∅ "Main Street" = ∅.
Proof.
  apply (proj2 (audit_street_type_effect ∅ "Main Street")).
  intros k [= <-]. apply list_elem_of_In. by left.
Defined.

Lemma sample_start_well_tagged (filename : string) :
  well_tagged (sample_start filename).
Proof.
  intros t (ev & elem & Hin & He & Ht).
  destruct Hin as [[= <- <-] | [[= <- <-] | [[= <- <-] | []]]];
    destruct He as [He | He]; try discriminate He.
  cbn in Ht.
  destruct Ht as [<- | [<- | [<- | []]]]; split; try (by eexists);
    try (intros _; by eexists); intros [=].
Qed.

Lemma audit_filed_witness :
  exists street_types,
    audit (fun _ => true) sample_start "sample.osm" = Return street_types /\
    forall k n,
      filed street_types k n <->
      (exists t, audited (sample_start "sample.osm") t /\
                 street_name_of t n) /\
      street_type_of n = Some k /\ k ∉ expected.
Proof.
  apply (audit_filed (fun _ => true) sample_start "sample.osm").
  - reflexivity.
  - apply sample_start_well_tagged.
Defined.

Lemma audit_tags_raises (tags : list Element) :
  forall street_types,
    (exists t, In t tags /\ attrib t !! "k" = None) ->
    exists key, audit_tags tags street_types = Raise (KeyError key).
Proof.
  induction tags as [|tg tags IH]; intros street_types (t & Hin & Hk);
    [done |].
  cbn [audit_tags]. unfold is_street_name.
  destruct (attrib tg !! "k") as [kv |] eqn:Ek; [|by eexists].
  destruct (String.eqb kv "addr:street").
  - destruct (attrib tg !! "v"); [|by eexists].
    apply IH. exists t. split; [|done].
    destruct Hin as [<- | Hin]; [congruence | done].
  - apply IH. exists t. split; [|done].
    destruct Hin as [<- | Hin]; [congruence | done].
Qed.

Lemma audit_tags_raise_kind (tags : list Element) :
  forall street_types e,
    audit_tags tags street_types = Raise e -> exists key, e = KeyError key.
Proof.
  induction tags as [|tg tags IH]; intros street_types e; [done |].
  cbn [audit_tags]. unfold is_street_name.
  destruct (attrib tg !! "k") as [kv |]; [|intros [= <-]; by eexists].
  destruct (String.eqb kv "addr:street"); [|apply IH].
  destruct (attrib tg !! "v"); [apply IH | intros [= <-]; by eexists].
Qed.

(** X14.  When a [tag] element the audit looks at has no [k], [audit]
    returns nothing: it raises a [KeyError]. *)
Theorem audit_key_error (can_open : string -> bool)
    (iterparse : string -> list (string * Element)) (osmfile : string) :
  can_open osmfile = true ->
  (exists t, audited (iterparse osmfile) t /\ attrib t !! "k" = None) ->
  exists key, audit can_open iterparse osmfile = Raise (KeyError key).
Proof.
  intros Ho (t & Ha & Hk). unfold audit. rewrite Ho.
  generalize (∅ : gmap string (gset string)).
  induction (iterparse osmfile) as [|[ev elem] evs IH]; intros street_types.
  { by destruct Ha as (? & ? & [] & _). }
  cbn [audit_events].
  destruct Ha as (ev' & elem' & Hin & He & Ht).
  destruct (String.eqb (Xml.tag elem) "node" || String.eqb (Xml.tag elem) "way")
    eqn:Etag.
  - destruct (audit_tags (iter "tag" elem) street_types) as [m1 | e] eqn:Er.
    + destruct Hin as [[= <- <-] | Hin].
      * destruct (audit_tags_raises (iter "tag" elem) street_types)
          as (key & Hr); [by exists t |]. congruence.
      * apply IH. by exists ev', elem'.
    + apply audit_tags_raise_kind in Er as (key & ->). by eexists.
  - destruct Hin as [[= <- <-] | Hin].
    + apply orb_false_iff in Etag as [E1 E2].
      apply String.eqb_neq in E1, E2. by destruct He.
    + apply IH. by exists ev', elem'.
Qed.

Lemma audit_key_error_witness :
  exists key,
    audit (fun _ => true)
          (fun _ => [("start", Elem "way" ∅ [Elem "tag" ∅ []])])
          "sample.osm" = Raise (KeyError key).
Proof.
  apply (audit_key_error (fun _ => true)
           (fun _ => [("start", Elem "way" ∅ [Elem "tag" ∅ []])])
           "sample.osm").
  - reflexivity.
  - exists (Elem "tag" ∅ []). split; [|reflexivity].
    exists "start", (Elem "way" ∅ [Elem "tag" ∅ []]).
    split; [by left |]. split; [by right |]. by left.
Defined.

(** *** What [street_type_re] finds *)

Lemma drop_drop (a b : nat) (s : string) :
  string_drop (a + b) s = string_drop b (string_drop a s).
Proof.
  revert s. induction a as [|a IH]; intros s; [done |].
  destruct s as [|c s]; cbn [Nat.add string_drop]; [by destruct b | apply IH].
Qed.

Lemma take_drop (n : nat) (s : string) :
  s = substring 0 n s +:+ string_drop n s.
Proof.
  revert s. induction n as [|n IH]; intros [|c s]; cbn; try done.
  by rewrite <- IH.
Qed.

Lemma substring_drop (pos n : nat) (s : string) :
  substring pos n s = substring 0 n (string_drop pos s).
Proof.
  revert s. induction pos as [|pos IH]; intros s; [done |].
  destruct s as [|c s]; cbn [substring string_drop]; [by destruct n | apply IH].
Qed.

Lemma get_drop (pos : nat) (s : string) :
  String.get pos s = String.get 0 (string_drop pos s).
Proof.
  revert s. induction pos as [|pos IH]; intros [|c s]; cbn; auto.
Qed.

Lemma drop_length (pos : nat) (s : string) :
  String.length (string_drop pos s) = (String.length s - pos)%nat.
Proof.
  revert s. induction pos as [|pos IH]; intros [|c s]; cbn; auto; lia.
Qed.

Lemma length_zero (s : string) : String.length s = O -> s = EmptyString.
Proof. by destruct s. Qed.

Lemma at_end_drop (s : string) (e : nat) :
  at_end s e = true ->
  string_drop e s = EmptyString \/ string_drop e s = SplitData.lf.
Proof.
  unfold at_end. intros H. apply orb_true_iff in H as [H | H].
  - apply Nat.eqb_eq in H. left. apply length_zero.
    rewrite drop_length. lia.
  - apply andb_true_iff in H as [Hl Hc]. apply Nat.eqb_eq in Hl.
    right. rewrite get_drop in Hc.
    pose proof (drop_length e s) as Hd.
    destruct (string_drop e s) as [|c [|c' d]]; cbn in *; try lia.
    apply Ascii.eqb_eq in Hc. by subst.
Qed.

Lemma span_all (cls : ascii -> bool) (s : string) (n : nat) :
  (n <= span cls s)%nat -> all_chars cls (substring 0 n s) = true.
Proof.
  revert s. induction n as [|n IH]; intros [|c s]; cbn; try done.
  destruct (cls c); [|lia]. intros H. apply IH. lia.
Qed.

Lemma span_length (cls : ascii -> bool) (s : string) :
  (span cls s <= String.length s)%nat.
Proof. induction s as [|c s IH]; cbn; [done |]. destruct (cls c); lia. Qed.

Lemma span_extend (cls : ascii -> bool) (s : string) (j : nat) (c : ascii) :
  (j <= span cls s)%nat -> String.get j s = Some c -> cls c = true ->
  (S j <= span cls s)%nat.
Proof.
  revert s. induction j as [|j IH]; intros [|d s]; cbn; try done.
  - intros _ [= ->] ->. lia.
  - destruct (cls d); [|lia]. intros H Hg Hc.
    apply le_n_S, IH; [lia | done..].
Qed.

Lemma span_stop (cls : ascii -> bool) (s : string) (i : nat) (c : ascii) :
  String.get i s = Some c -> cls c = false -> (span cls s <= i)%nat.
Proof.
  revert s. induction i as [|i IH]; intros [|d s]; cbn; try done.
  - by intros [= ->] ->.
  - intros Hg Hc. destruct (cls d); [|lia].
    apply le_n_S. by apply IH.
Qed.

Lemma span_whole (cls : ascii -> bool) (s : string) :
  all_chars cls s = true -> span cls s = String.length s.
Proof.
  induction s as [|c s IH]; cbn; [done |].
  destruct (cls c); [|done]. intros H. by rewrite IH.
Qed.

Lemma try_lengths_Some (k : nat -> option nat) (j e : nat) :
  try_lengths k j = Some e ->
  exists j', (1 <= j' <= j)%nat /\ k j' = Some e.
Proof.
  induction j as [|j IH]; cbn; [done |].
  destruct (k (S j)) as [e' |] eqn:E.
  - intros [= <-]. exists (S j). split; [lia | done].
  - intros H. destruct (IH H) as (j' & Hj & Hk). exists j'. split; [lia | done].
Qed.

(** A match of [street_type_re] at [pos]: a word boundary at [pos], then
    characters that are no white space, up to the end of the string. *)
Lemma match_at_street (s : string) (pos e : nat) :
  match_at street_type_re s pos = Some e ->
  at_boundary s pos = true /\
  exists j, (1 <= j <= span not_space (string_drop pos s))%nat /\
            e = (pos + j)%nat /\ at_end s e = true.
Proof.
  unfold street_type_re. cbn [match_at].
  destruct (at_boundary s pos); [|done]. intros H. split; [done |].
  apply try_lengths_Some in H as (j & Hj & H).
  assert (Hplain : (if at_end s (pos + j) then Some (pos + j)%nat else None)
                   = Some e ->
          exists j, (1 <= j <= span not_space (string_drop pos s))%nat /\
                    e = (pos + j)%nat /\ at_end s e = true).
  { destruct (at_end s (pos + j)) eqn:E; [|done]. intros [= <-]. eauto. }
  destruct (String.get (pos + j) s) as [c |] eqn:Eg; [|by apply Hplain].
  destruct (Ascii.eqb_spec c ".") as [-> | Hne]; [|by apply Hplain].
  destruct (at_end s (S (pos + j))) eqn:E; [|by apply Hplain].
  injection H as <-. exists (S j).
  replace (pos + S j)%nat with (S (pos + j)) by lia. split; [|split].
  - split; [lia |]. apply (span_extend _ _ _ "."%char); [lia | | done].
    by rewrite get_drop, <- drop_drop, <- get_drop.
  - lia.
  - done.
Qed.

Lemma search_from_Some (re : list re_item) (s : string) (more : nat) :
  forall pos p e,
    search_from re s pos more = Some (p, e) -> match_at re s p = Some e.
Proof.
  induction more as [|more IH]; intros pos p e; cbn [search_from];
    destruct (match_at re s pos) eqn:E; try done;
    try (by intros [= <- <-]).
  apply IH.
Qed.

(** X15.  The token [street_type_re] finds in a name is not empty, has no
    white space in it, and is the end of the name, or the end of the name
    but for a final newline. *)
Theorem street_type_shape (name street_type : string) :
  street_type_of name = Some street_type ->
  street_type <> EmptyString /\
  all_chars not_space street_type = true /\
  exists before,
    name = before +:+ street_type \/
    name = before +:+ street_type +:+ SplitData.lf.
Proof.
  unfold street_type_of, search.
  destruct (search_from street_type_re name 0 (String.length name))
    as [[p e] |] eqn:Es; [|done].
  intros [= <-]. apply search_from_Some in Es.
  apply match_at_street in Es as (_ & j & [Hj1 Hj2] & -> & Hend).
  unfold group. cbn [fst snd].
  replace (p + j - p)%nat with j by lia.
  rewrite substring_drop. set (d := string_drop p name) in *.
  split; [|split].
  - destruct d as [|c d]; [cbn in Hj2; lia |].
    destruct j; [lia | done].
  - by apply span_all.
  - exists (substring 0 p name).
    pose proof (take_drop p name) as Hn. fold d in Hn.
    pose proof (take_drop j d) as Hd.
    destruct (at_end_drop _ _ Hend) as [He | He];
      rewrite drop_drop in He; fold d in He; rewrite He in Hd.
    + left. rewrite append_empty_r in Hd. by rewrite <- Hd.
    + right. by rewrite <- Hd.
Qed.

Lemma street_type_shape_witness :
  "Rd." <> EmptyString /\
  all_chars not_space "Rd." = true /\
  exists before,
    "Baldwin Rd." = before +:+ "Rd." \/
    "Baldwin Rd." = before +:+ "Rd." +:+ SplitData.lf.
Proof.
  apply (street_type_shape "Baldwin Rd." "Rd.").
  reflexivity.
Defined.

Lemma space_not_word (c : ascii) : is_space c = true -> is_word c = false.
Proof. by destruct c as [[] [] [] [] [] [] [] []]. Qed.

Lemma drop_app (a b : string) : string_drop (String.length a) (a +:+ b) = b.
Proof. induction a as [|c a IH]; [done | exact IH]. Qed.

Lemma get_drop_add (q i : nat) (s : string) :
  String.get i (string_drop q s) = String.get (q + i) s.
Proof.
  revert s. induction q as [|q IH]; intros [|c s]; cbn; auto.
Qed.

Lemma get_app_r (a b : string) (i : nat) :
  String.get (String.length a + i) (a +:+ b) = String.get i b.
Proof. induction a as [|c a IH]; [done | exact IH]. Qed.

Lemma get_length (s : string) : String.get (String.length s) s = None.
Proof. induction s as [|c s IH]; [done | exact IH]. Qed.

Lemma substring_whole (s : string) : substring 0 (String.length s) s = s.
Proof. induction s as [|c s IH]; cbn; [done | by rewrite IH]. Qed.

Lemma at_end_near (s : string) (e : nat) :
  at_end s e = true -> (String.length s <= S e)%nat.
Proof.
  unfold at_end. intros H. apply orb_true_iff in H as [H | H].
  - apply Nat.eqb_eq in H. lia.
  - apply andb_true_iff in H as [H _]. apply Nat.eqb_eq in H. lia.
Qed.

Lemma search_from_skip (re : list re_item) (s : string) (p e : nat) :
  match_at re s p = Some e ->
  forall more pos,
    (pos <= p <= pos + more)%nat ->
    (forall q, (pos <= q < p)%nat -> match_at re s q = None) ->
    search_from re s pos more = Some (p, e).
Proof.
  intros Hm. induction more as [|more IH]; intros pos Hp Hskip;
    cbn [search_from].
  - assert (pos = p) as -> by lia. by rewrite Hm.
  - destruct (decide (pos = p)) as [-> | Hne]; [by rewrite Hm |].
    rewrite Hskip by lia. apply IH; [lia |].
    intros q Hq. apply Hskip. lia.
Qed.

(** The last word of [before +:+ w] is found when there is a word
    boundary in front of it and no match starts in [before]. *)
Lemma last_word_found (before w : string) :
  is_token w ->
  match String.length before with
  | O => false
  | S p => word_at (before +:+ w) p
  end = false ->
  (forall q, (q < String.length before)%nat ->
             match_at street_type_re (before +:+ w) q = None) ->
  street_type_of (before +:+ w) = Some w.
Proof.
  intros [Hall Hword] Hb Hskip.
  set (s := before +:+ w) in *. set (p0 := String.length before) in *.
  assert (Hlen : String.length s = (p0 + String.length w)%nat)
    by apply append_length.
  assert (Hm : match_at street_type_re s p0 = Some (String.length s)).
  { unfold street_type_re. cbn [match_at].
    assert (Hbd : at_boundary s p0 = true).
    { unfold at_boundary. fold p0 in Hb. rewrite Hb. unfold word_at.
      replace p0 with (p0 + 0)%nat at 1 by lia.
      unfold s, p0. rewrite get_app_r.
      destruct w as [|c w]; [done |]. exact Hword. }
    rewrite Hbd.
    replace (span not_space (string_drop p0 s)) with (String.length w)
      by (unfold s, p0; rewrite drop_app; symmetry; by apply span_whole).
    destruct (String.length w) as [|n] eqn:En.
    { apply length_zero in En. by subst w. }
    cbn [try_lengths]. rewrite <- Hlen, get_length.
    unfold at_end. by rewrite Nat.eqb_refl. }
  unfold street_type_of, search.
  rewrite (search_from_skip _ _ p0 _ Hm)
    by (lia || (intros q Hq; apply Hskip; lia)).
  cbn [fmap option_fmap option_map]. f_equal.
  unfold group. cbn [fst snd].
  replace (String.length s - p0)%nat with (String.length w) by lia.
  rewrite substring_drop. unfold s, p0. rewrite drop_app.
  apply substring_whole.
Qed.

Lemma no_match_before_space (before w : string) (sp : ascii) (q : nat) :
  is_space sp = true -> w <> EmptyString ->
  (q <= String.length before)%nat ->
  match_at street_type_re (before +:+ String sp w) q = None.
Proof.
  intros Hsp Hw Hq.
  destruct (match_at _ _ q) as [e |] eqn:E; [|done]. exfalso.
  apply match_at_street in E as (_ & j & [Hj1 Hj2] & -> & Hend).
  apply at_end_near in Hend. rewrite append_length in Hend. cbn in Hend.
  assert (Hwl : (1 <= String.length w)%nat) by (destruct w; [done | cbn; lia]).
  assert (Hstop : (span not_space
                     (string_drop q (before +:+ String sp w)) <=
                   String.length before - q)%nat).
  { apply (span_stop _ _ _ sp).
    - rewrite get_drop_add.
      replace (q + (String.length before - q))%nat
        with (String.length before + 0)%nat by lia.
      by rewrite get_app_r.
    - unfold not_space. by rewrite Hsp. }
  lia.
Qed.

Lemma token_not_empty (w : string) : is_token w -> w <> EmptyString.
Proof. intros [_ H]. by destruct w. Qed.

Lemma found_alone (w : string) : is_token w -> street_type_of w = Some w.
Proof.
  intros Ht. apply (last_word_found EmptyString w Ht); [done |].
  intros q Hq. cbn in Hq. lia.
Qed.

Lemma found_after_space (before w : string) (sp : ascii) :
  is_token w -> is_space sp = true ->
  street_type_of (before +:+ String sp w) = Some w.
Proof.
  intros Ht Hsp. pose proof (token_not_empty w Ht) as Hw.
  replace (before +:+ String sp w)
    with ((before +:+ String sp EmptyString) +:+ w)
    by (by rewrite append_assoc).
  apply last_word_found; [done | |].
  - rewrite append_length. cbn [String.length].
    replace (String.length before + 1)%nat with (S (String.length before))
      by lia.
    unfold word_at. rewrite append_assoc.
    replace (String.length before) with (String.length before + 0)%nat
      at 1 by lia.
    rewrite get_app_r. cbn. by apply space_not_word.
  - intros q Hq. rewrite append_length in Hq. cbn in Hq.
    rewrite append_assoc. apply no_match_before_space; [done.. | lia].
Qed.

(** X16.  In a name that is one word, or that ends with white space and
    a word, [street_type_re] finds that word, when the word starts with
    a letter, a digit or an underscore and has no white space in it. *)
Theorem street_type_last_word (before w : string) (sp : ascii) :
  is_token w ->
  is_space sp = true ->
  street_type_of w = Some w /\
  street_type_of (before +:+ String sp w) = Some w.
Proof.
  intros Ht Hsp. split; [by apply found_alone | by apply found_after_space].
Qed.

Lemma street_type_last_word_witness :
  street_type_of "Parkway" = Some "Parkway" /\
  street_type_of ("Great Western" +:+ String " " "Parkway") = Some "Parkway".
Proof.
  apply (street_type_last_word "Great Western" "Parkway" " ").
  - split; reflexivity.
  - reflexivity.
Defined.

(** *** [update_name] on the names that need no fixing *)

Lemma update_name_missing (name street_type : string)
    (mapping : gmap string string) :
  street_type_of name = Some street_type ->
  mapping !! street_type = None ->
  update_name name mapping = Audit.Raise (Audit.KeyError street_type).
Proof.
  unfold street_type_of, update_name.
  destruct (search street_type_re name) as [m |]; [|done].
  intros [= <-] ->. reflexivity.
Qed.

Lemma expected_tokens (w : string) :
  In w expected -> is_token w /\ mapping !! w = None.
Proof.
  intros H. repeat (destruct H as [<- | H]; [by repeat split |]).
  destruct H.
Qed.

(** X17.  With the [mapping] of [audit.py], [update_name] raises
    [KeyError] on every name that is an expected street type or ends with
    a blank and an expected street type, as [Main Street] does: the
    [mapping] has the abbreviations only. *)
Theorem update_name_expected (before w : string) :
  In w expected ->
  update_name w mapping = Audit.Raise (Audit.KeyError w) /\
  update_name (before +:+ String " " w) mapping =
    Audit.Raise (Audit.KeyError w).
Proof.
  intros Hw. destruct (expected_tokens w Hw) as [Ht Hm]. split.
  - apply update_name_missing; [by apply found_alone | done].
  - apply update_name_missing; [by apply found_after_space | done].
Qed.

Lemma update_name_expected_witness :
  update_name "Street" mapping = Audit.Raise (Audit.KeyError "Street") /\
  update_name ("Main" +:+ String " " "Street") mapping =
    Audit.Raise (Audit.KeyError "Street").
Proof.
  apply (update_name_expected "Main" "Street").
  by left.
Defined.

Lemma update_name_present (name street_type v : string)
    (mapping : gmap string string) :
  street_type_of name = Some street_type ->
  mapping !! street_type = Some v ->
  update_name name mapping = Audit.Return name.
Proof.
  unfold street_type_of, update_name.
  destruct (search street_type_re name) as [m |]; [|done].
  intros [= <-] ->. reflexivity.
Qed.

Lemma mapping_tokens (w v : string) : mapping !! w = Some v -> is_token w.
Proof.
  unfold mapping. intros H. apply elem_of_list_to_map_2 in H.
  apply list_elem_of_In in H.
  repeat (destruct H as [[= <- <-] | H]; [by split |]).
  destruct H.
Qed.

(** X18.  With the [mapping] of [audit.py], [update_name] fixes none of
    the names it has an entry for: a name that ends with a blank and a key
    of the [mapping], as [Baldwin Rd.] does, comes back as it was. *)
Theorem update_name_fixes_nothing (before w v : string) :
  mapping !! w = Some v ->
  update_name (before +:+ String " " w) mapping =
    Audit.Return (before +:+ String " " w).
Proof.
  intros Hm. apply (update_name_present _ w v); [|done].
  apply found_after_space; [by apply (mapping_tokens w v) | done].
Qed.

Lemma update_name_fixes_nothing_witness :
  update_name ("El Camino" +:+ String " " "Blvd.") mapping =
    Audit.Return ("El Camino" +:+ String " " "Blvd.").
Proof.
  apply (update_name_fixes_nothing "El Camino" "Blvd." "Boulevard").
  reflexivity.
Defined.

End audit_more.


(** * The flight tables *)

Section process_facts.
Import Process.

Example process_file_sample :
  fst (process_file sample_int (fun _ => true) sample_rows "FL-ATL.html" ∅) =
  Return [VRef 0; VRef 0].
Proof. vm_compute. reflexivity. Qed.

Section rows.
Variable py_int : string -> option Z.

Lemma bind_inv {A B} (m : M A) (k : A -> M B) h b h' :
  bind m k h = (Return b, h') ->
  exists a h1, m h = (Return a, h1) /\ k a h1 = (Return b, h').
Proof.
  unfold bind. destruct (m h) as [[a | e] h1]; [eauto | done].
Qed.

Lemma index_inv (l : list string) (i : nat) h x h' :
  index l i h = (Return x, h') -> l !! i = Some x /\ h' = h.
Proof.
  unfold index. destruct (l !! i); [|done]. by intros [= -> ->].
Qed.

Lemma to_int_inv (s : string) h n h' :
  to_int py_int s h = (Return n, h') -> py_int s = Some n /\ h' = h.
Proof.
  unfold to_int. destruct (py_int s); [|done]. by intros [= -> ->].
Qed.

Lemma get_item_inv (r : nat) (key : string) h v h' :
  get_item r key h = (Return v, h') ->
  h !! r ≫= (fun d => d !! key) = Some v /\ h' = h.
Proof.
  unfold get_item.
  destruct (h !! r ≫= _) as [v' |]; [|done]. by intros [= -> ->].
Qed.

Lemma set_item_of_inv (v : value) (key : string) (x : value) h h' :
  set_item_of v key x h = (Return tt, h') ->
  exists r, v = VRef r /\ h' = alter (fun d => <[key := x]> d) r h.
Proof.
  destruct v as [| |r]; try done. intros [= <-]. eauto.
Qed.

Lemma new_dict_inv h r h' :
  new_dict h = (Return r, h') -> (r ∉ dom h) /\ h' = <[r := ∅]> h.
Proof. unfold new_dict. intros [= <- <-]. split; [apply is_fresh | done]. Qed.

(** One row that is kept: [info] gets the year and the month of the row,
    and the loop goes on with one more reference to [info] in [data]. *)
Lemma process_rows_kept (info : nat) (row : list string)
    (entries : list (list string)) (data data' : list value) h h' d :
  kept row = true ->
  h !! info = Some d ->
  process_rows py_int info (row :: entries) data h = (Return data', h') ->
  exists h1 d1 c0 c1 y m,
    row !! 0%nat = Some c0 /\ row !! 1%nat = Some c1 /\
    py_int c0 = Some y /\ py_int c1 = Some m /\
    h1 !! info = Some d1 /\
    d1 !! "year" = Some (VInt y) /\ d1 !! "month" = Some (VInt m) /\
    process_rows py_int info entries (data ++ [VRef info]) h1 =
      (Return data', h').
Proof.
  intros Hk Hd H. cbn [process_rows] in H. unfold kept in Hk.
  apply bind_inv in H as (c1 & h1 & Hi & H).
  apply index_inv in Hi as [Hc1 ->]. rewrite Hc1 in Hk. rewrite Hk in H.
  apply bind_inv in H as (c0 & h1 & Hi & H). apply index_inv in Hi as [Hc0 ->].
  apply bind_inv in H as (y & h1 & Hi & H). apply to_int_inv in Hi as [Hy ->].
  apply bind_inv in H as ([] & ha & [= Ha] & H).
  apply bind_inv in H as (c1' & h1 & Hi & H).
  apply index_inv in Hi as [Hc1' ->].
  assert (c1' = c1) as -> by congruence.
  apply bind_inv in H as (m & h1 & Hi & H). apply to_int_inv in Hi as [Hm ->].
  apply bind_inv in H as ([] & hb & [= Hb] & H).
  assert (H2 : hb !! info =
               Some (<["month" := VInt m]> (<["year" := VInt y]> d)))
    by (subst ha hb; by rewrite !lookup_alter_eq, Hd).
  apply bind_inv in H as (fl & hc & Hn & H).
  apply new_dict_inv in Hn as [Hfl Hc].
  assert (Hfresh : fl <> info).
  { intros ->. apply Hfl, elem_of_dom. by rewrite H2. }
  apply bind_inv in H as ([] & h3 & [= H3e] & H).
  assert (H3 : h3 !! info =
               Some (<["flights" := VRef fl]>
                       (<["month" := VInt m]> (<["year" := VInt y]> d)))).
  { subst h3 hc. rewrite lookup_alter_eq, lookup_insert_ne by done.
    by rewrite H2. }
  apply bind_inv in H as (c2 & h1 & Hi & H). apply index_inv in Hi as [_ ->].
  apply bind_inv in H as (dm & h1 & Hi & H). apply to_int_inv in Hi as [_ ->].
  apply bind_inv in H as (v & h1 & Hg & H).
  apply get_item_inv in Hg as [Hg ->].
  rewrite H3 in Hg. cbn in Hg. rewrite lookup_insert_eq in Hg.
  injection Hg as <-.
  apply bind_inv in H as ([] & h4 & [= H4e] & H).
  assert (H4 : h4 !! info = h3 !! info)
    by (subst h4; by rewrite lookup_alter_ne).
  apply bind_inv in H as (c3 & h1 & Hi & H). apply index_inv in Hi as [_ ->].
  apply bind_inv in H as (it & h1 & Hi & H). apply to_int_inv in Hi as [_ ->].
  apply bind_inv in H as (v & h1 & Hg & H).
  apply get_item_inv in Hg as [Hg ->].
  rewrite H4, H3 in Hg. cbn in Hg.
  rewrite lookup_insert_eq in Hg. injection Hg as <-.
  apply bind_inv in H as ([] & h5 & [= H5e] & H).
  assert (H5 : h5 !! info = h3 !! info)
    by (subst h5; by rewrite lookup_alter_ne, H4).
  exists h5, (<["flights" := VRef fl]>
                (<["month" := VInt m]> (<["year" := VInt y]> d))),
    c0, c1, y, m.
  split; [done |]. split; [done |]. split; [done |]. split; [done |].
  split; [by rewrite H5 |]. split; [|split; [|exact H]].
  - by rewrite !lookup_insert_ne, lookup_insert_eq by done.
  - by rewrite lookup_insert_ne, lookup_insert_eq by done.
Qed.

Lemma process_rows_skip (info : nat) (row : list string)
    (entries : list (list string)) (data data' : list value) h h' :
  kept row = false ->
  process_rows py_int info (row :: entries) data h = (Return data', h') ->
  process_rows py_int info entries data h = (Return data', h').
Proof.
  intros Hk H. cbn [process_rows] in H. unfold kept in Hk.
  apply bind_inv in H as (c1 & h1 & Hi & H).
  apply index_inv in Hi as [Hc1 ->]. rewrite Hc1 in Hk. by rewrite Hk in H.
Qed.

(** What the loop returns: a reference to [info] for every row kept, and
    in [info] the year and the month of the last row kept. *)
Lemma process_rows_inv (info : nat) (entries : list (list string)) :
  forall (data data' : list value) h h' d,
    h !! info = Some d ->
    process_rows py_int info entries data h = (Return data', h') ->
    data' = data ++ replicate (List.length (List.filter kept entries))
                              (VRef info) /\
    exists d',
      h' !! info = Some d' /\
      match last (List.filter kept entries) with
      | Some row =>
          d' !! "year" = VInt <$> (row !! 0%nat ≫= py_int) /\
          d' !! "month" = VInt <$> (row !! 1%nat ≫= py_int)
      | None => d' = d
      end.
Proof.
  induction entries as [|row entries IH]; intros data data' h h' d Hd H.
  - cbn in H. injection H as <- <-. split; [by rewrite app_nil_r |].
    by exists d.
  - cbn [List.filter]. destruct (kept row) eqn:Hk.
    + destruct (process_rows_kept _ _ _ _ _ _ _ _ Hk Hd H)
        as (h1 & d1 & c0 & c1 & y & m & H0 & H1 & Hy & Hm & Hd1 & Hdy & Hdm
            & Hrest).
      destruct (IH _ _ _ _ _ Hd1 Hrest) as (-> & d' & Hd' & Hlast).
      split; [cbn; by rewrite <- app_assoc |].
      exists d'. split; [done |].
      rewrite last_cons.
      destruct (last (List.filter kept entries)) as [row' |]; [done |].
      subst d'. rewrite H0, H1. cbn. by rewrite Hy, Hm.
    + apply process_rows_skip in H; [|done]. by apply (IH data data' h h' d).
Qed.

End rows.

(** X19.  When [process_file] returns, its list has one entry for every
    row that is not a [TOTAL] row, and all the entries are references to
    one and the same [dict], made by this call. *)
Theorem process_file_one_dict (py_int : string -> option Z)
    (can_open : string -> bool)
    (rows_of : string -> option (list (list string)))
    (f : string) (data : list value) (h : gmap nat (gmap string value)) :
  fst (process_file py_int can_open rows_of f h) = Return data ->
  exists info entries,
    (info ∉ dom h) /\
    rows_of (datadir +:+ "/" +:+ f) = Some entries /\
    data = replicate (List.length (List.filter kept entries)) (VRef info).
Proof.
  destruct (process_file py_int can_open rows_of f h) as [r h'] eqn:H.
  cbn [fst]. intros ->. unfold process_file in H.
  apply bind_inv in H as (info & h1 & Hn & H).
  apply new_dict_inv in Hn as [Hfresh ->].
  destruct (split "-" (substring 0 6 f)) as [|a [|b [|c l]]]; try done.
  apply bind_inv in H as ([] & h2 & [= <-] & H).
  apply bind_inv in H as ([] & h3 & [= <-] & H).
  destruct (can_open _); [|done].
  destruct (rows_of _) as [entries |]; [|done].
  exists info, entries. split; [done |]. split; [done |].
  eapply process_rows_inv in H as [-> _]; [done |].
  by rewrite !lookup_alter_eq, lookup_insert_eq.
Qed.

Lemma process_file_one_dict_witness :
  exists info entries,
    (info ∉ dom (∅ : gmap nat (gmap string value))) /\
    sample_rows (datadir +:+ "/" +:+ "FL-ATL.html") = Some entries /\
    [VRef 0%nat; VRef 0%nat] =
      replicate (List.length (List.filter kept entries)) (VRef info).
Proof.
  apply (process_file_one_dict sample_int (fun _ => true) sample_rows
           "FL-ATL.html" [VRef 0%nat; VRef 0%nat] ∅).
  vm_compute. reflexivity.
Defined.

(** X20.  When [process_file] returns, every entry of its list shows the
    year and the month of the last row that is not a [TOTAL] row,
    whatever row the entry was made for. *)
Theorem process_file_last_row (py_int : string -> option Z)
    (can_open : string -> bool)
    (rows_of : string -> option (list (list string)))
    (f : string) (data : list value) (h : gmap nat (gmap string value))
    (entries : list (list string)) (row : list string) (v : value) :
  fst (process_file py_int can_open rows_of f h) = Return data ->
  rows_of (datadir +:+ "/" +:+ f) = Some entries ->
  last (List.filter kept entries) = Some row ->
  In v data ->
  item (snd (process_file py_int can_open rows_of f h)) v "year" =
    VInt <$> (row !! 0%nat ≫= py_int) /\
  item (snd (process_file py_int can_open rows_of f h)) v "month" =
    VInt <$> (row !! 1%nat ≫= py_int).
Proof.
  destruct (process_file py_int can_open rows_of f h) as [r h'] eqn:H.
  cbn [fst snd]. intros -> Hrows Hlast Hv. unfold process_file in H.
  apply bind_inv in H as (info & h1 & Hn & H).
  apply new_dict_inv in Hn as [Hfresh ->].
  destruct (split "-" (substring 0 6 f)) as [|a [|b [|c l]]]; try done.
  apply bind_inv in H as ([] & h2 & [= <-] & H).
  apply bind_inv in H as ([] & h3 & [= <-] & H).
  destruct (can_open _); [|done].
  rewrite Hrows in H.
  eapply process_rows_inv in H as (-> & d' & Hd' & Hl);
    [|by rewrite !lookup_alter_eq, lookup_insert_eq].
  rewrite Hlast in Hl. cbn [app] in Hv.
  apply list_elem_of_In, elem_of_replicate in Hv as [-> _].
  unfold item. rewrite Hd'. exact Hl.
Qed.

Lemma process_file_last_row_witness :
  item (snd (process_file sample_int (fun _ => true) sample_rows
               "FL-ATL.html" ∅)) (VRef 0) "year" =
    VInt <$> (["2003"; "1"; "785,160"; "89,463"] !! 0%nat ≫= sample_int) /\
  item (snd (process_file sample_int (fun _ => true) sample_rows
               "FL-ATL.html" ∅)) (VRef 0) "month" =
    VInt <$> (["2003"; "1"; "785,160"; "89,463"] !! 1%nat ≫= sample_int).
Proof.
  apply (process_file_last_row sample_int (fun _ => true) sample_rows
           "FL-ATL.html" [VRef 0%nat; VRef 0%nat] ∅
           [ ["2002"; "10"; "815,489"; "92,565"];
             ["2002"; "TOTAL"; "8,085,083"; "1,023,994"];
             ["2003"; "1"; "785,160"; "89,463"] ]).
  - vm_compute. reflexivity.
  - reflexivity.
  - reflexivity.
  - by left.
Defined.

(** *** The name of the file *)

Lemma split_length (sep : ascii) (s : string) :
  List.length (split sep s) = S (count_char sep s).
Proof.
  induction s as [|c s IH]; [done |]. cbn [split count_char].
  destruct (Ascii.eqb c sep); cbn [List.length]; [by rewrite IH |].
  destruct (split sep s); [done | exact IH].
Qed.

(** X21.  [process_file] raises [ValueError] when the first six
    characters of the file name do not have exactly one [-] in them,
    whatever the file holds and whether it can be opened or not. *)
Theorem process_file_bad_name (py_int : string -> option Z)
    (can_open : string -> bool)
    (rows_of : string -> option (list (list string)))
    (f : string) (h : gmap nat (gmap string value)) :
  count_char "-" (substring 0 6 f) <> 1%nat ->
  fst (process_file py_int can_open rows_of f h) = Raise ValueError.
Proof.
  intros Hc. unfold process_file, bind, new_dict.
  pose proof (split_length "-" (substring 0 6 f)) as Hl.
  destruct (split "-" (substring 0 6 f)) as [|a [|b [|c l]]]; try done.
  cbn in Hl. lia.
Qed.

Lemma process_file_bad_name_witness :
  fst (process_file sample_int (fun _ => true) sample_rows "FLATL.html" ∅) =
  Raise ValueError.
Proof.
  apply (process_file_bad_name sample_int (fun _ => true) sample_rows
           "FLATL.html" ∅).
  vm_compute. discriminate.
Defined.

End process_facts.
